(** * The chat agent loop of nekro-agent: a shallow embedding

    Source: [src/nekro_agent/services/agents/chat_agent.py]
    ([agent_run] and [agent_exec_result]).

    Python integers are [Z], Python floats are binary64 numbers with the
    operations of the Standard Library's specification of IEEE 754
    arithmetic ([SpecFloat]), [str] values are [string]s (the bytes of
    their UTF-8 encoding), [bytes] values are lists of [Byte.byte].  The
    list object bound to [addition_prompt_message] is shared between an
    invocation and its retries, so lists of prompt messages live in a
    heap and are passed by reference.  Every call to a collaborator
    (database, model backend, sandbox, chat transport, clock, entropy
    source) is recorded in a trace; what the collaborator answers is
    given by an environment that sees the trace so far. *)

From Stdlib Require Import ZArith QArith Qround Ascii String.
From Stdlib Require SpecFloat.
From stdpp Require Import base list strings sorting pretty.

Open Scope Z_scope.

(** ** Python primitives *)

Module Py.

(** [float]: binary64, that is 53 bits of precision and infinities at
    exponent 1024; the operations round to nearest, ties to even. *)
Definition float : Type := SpecFloat.spec_float.
Definition prec : Z := 53.
Definition emax : Z := 1024.

(** The conversion of an int operand in mixed arithmetic ([x - n] with
    [x] a float converts [n] first): the nearest float, and
    [OverflowError] when there is none. *)
Definition float_of_int (n : Z) : string + float :=
  match SpecFloat.binary_normalize prec emax n 0 false with
  | SpecFloat.S754_infinity _ => inl "OverflowError: int too large to convert to float"
  | y => inr y
  end.

(** [x - y] on floats; an overflow gives an infinity, no exception. *)
Definition float_sub (x y : float) : float := SpecFloat.SFsub prec emax x y.

(** [x - n] for a float [x] and an int [n]. *)
Definition float_sub_int (x : float) (n : Z) : string + float :=
  match float_of_int n with
  | inl e => inl e
  | inr y => inr (float_sub x y)
  end.

(** [int(x)] on a float: truncation toward zero; [OverflowError] on an
    infinity and [ValueError] on a NaN. *)
Definition int_of_float (x : float) : string + Z :=
  match x with
  | SpecFloat.S754_zero _ => inr 0
  | SpecFloat.S754_finite s m e =>
      inr (SpecFloat.cond_Zopp s
             (if 0 <=? e then Z.pos m * 2 ^ e else Z.pos m / 2 ^ (- e)))
  | SpecFloat.S754_infinity _ => inl "OverflowError: cannot convert float infinity to integer"
  | SpecFloat.S754_nan => inl "ValueError: cannot convert float NaN to integer"
  end.

(** The number that a finite float denotes. *)
Definition float_value (x : float) : Q :=
  match x with
  | SpecFloat.S754_finite s m e =>
      if 0 <=? e then inject_Z (SpecFloat.cond_Zopp s (Z.pos m * 2 ^ e))
      else Qmake (SpecFloat.cond_Zopp s (Z.pos m)) (Z.to_pos (2 ^ (- e)))
  | _ => 0%Q
  end.

(** Start or stop index [k] of a slice over a sequence of length [n]:
    a negative index counts from the end, and the result is clamped to
    [0, n]. *)
Definition slice_index (n : nat) (k : Z) : nat :=
  if k <? 0 then Z.to_nat (Z.of_nat n + k) else Nat.min (Z.to_nat k) n.

(** [l[k:]] *)
Definition slice_from {A} (k : Z) (l : list A) : list A :=
  drop (slice_index (length l) k) l.

(** [l[:k]] *)
Definition slice_to {A} (k : Z) (l : list A) : list A :=
  take (slice_index (length l) k) l.

Definition chars (s : string) : list ascii := list_ascii_of_string s.
Definition str (l : list ascii) : string := string_of_list_ascii l.

(** [len(s)] *)
Definition len (s : string) : Z := Z.of_nat (length (chars s)).

(** [s.endswith(suf)] *)
Definition endswith (s suf : string) : bool :=
  bool_decide (drop (length (chars s) - length (chars suf)) (chars s) = chars suf).

(** [s[:k]] on a string *)
Definition str_slice_to (k : Z) (s : string) : string := str (slice_to k (chars s)).

(** [x or y] on strings: the empty string is falsy. *)
Definition str_or (x y : string) : string :=
  if String.eqb x "" then y else x.

(** [str(n)] on an int, as an f-string prints it. *)
Definition str_of_int (n : Z) : string := pretty n.

(** The newline of an f-string. *)
Definition nl : string := String (ascii_of_nat 10) EmptyString.

Definition hex_digit (n : N) : ascii :=
  match n with
  | 0 => "0" | 1 => "1" | 2 => "2" | 3 => "3" | 4 => "4" | 5 => "5"
  | 6 => "6" | 7 => "7" | 8 => "8" | 9 => "9" | 10 => "a" | 11 => "b"
  | 12 => "c" | 13 => "d" | 14 => "e" | _ => "f"
  end%N%char.

Definition byte_hex (b : Byte.byte) : list ascii :=
  [hex_digit (Byte.to_N b / 16); hex_digit (Byte.to_N b mod 16)]%N.

(** [bs.hex()] *)
Definition hex (bs : list Byte.byte) : string := str (concat (map byte_hex bs)).

Definition is_hex_digit (c : ascii) : bool :=
  bool_decide (c ∈ chars "0123456789abcdef").

End Py.

(** ** Data model *)

(** Modelled from the spec: the row type [DBChatMessage] is declared in
    [nekro_agent/models/db_chat_message.py]; a conversation turn has a
    channel identifier, a sender, a timestamp in whole seconds and a
    text. *)
Record DBChatMessage := {
  db_chat_key : string;
  db_sender : string;
  send_timestamp : Z;
  db_content : string
}.

(** The fields of [ChatMessage] that the loop reads. *)
Record ChatMessage := {
  chat_key : string;
  sender_nickname : string
}.

(** Entries of [addition_prompt_message]. *)
Inductive PromptMessage :=
| UserMessage (text : string)
| AiMessage (text : string).

(** Modelled from the spec: the enumeration [ChatResponseType] is declared
    in [components/chat_ret_cmp.py]; a resolved action is a text emission
    or a script execution. *)
Inductive ChatResponseType := TEXT | SCRIPT.

(** The values of [config] that the loop reads. *)
Record Config := {
  DEBUG_IN_CHAT : bool;
  AI_CHAT_PRESET_SETTING : string;
  AI_CHAT_CONTEXT_EXPIRE_SECONDS : Z;
  AI_CHAT_CONTEXT_MAX_LENGTH : Z;
  AI_CHAT_LLM_API_MAX_RETRIES : Z;
  AI_SCRIPT_MAX_RETRY_TIMES : Z
}.

(** ** Context window (step 2 of [agent_run]) *)

(** [order_by(DBChatMessage.send_timestamp.desc())] *)
Definition ts_desc (a b : DBChatMessage) : Prop :=
  send_timestamp b <= send_timestamp a.

Definition ts_asc (a b : DBChatMessage) : Prop :=
  send_timestamp a <= send_timestamp b.

#[global] Instance ts_desc_dec a b : Decision (ts_desc a b) :=
  Z_le_dec (send_timestamp b) (send_timestamp a).

(** [.filter(chat_key == key, send_timestamp >= sta)] *)
Definition in_window (key : string) (sta : Z) (m : DBChatMessage) : Prop :=
  db_chat_key m = key /\ sta <= send_timestamp m.

#[global] Instance in_window_dec key sta m : Decision (in_window key sta m).
Proof. unfold in_window. apply _. Defined.

(** [.limit(n)].  Modelled from the spec: the query is run by the
    database engine behind [DBChatMessage.sqa_query()], which is not
    part of [chat_agent.py].  A limit that is not negative keeps the
    first [n] rows.  For a negative limit the model follows SQLite,
    where it puts no upper bound on the number of rows; the database is
    taken to return, an engine that rejects a negative limit is not
    modelled. *)
Definition sql_limit (n : Z) (rows : list DBChatMessage) : list DBChatMessage :=
  if n <? 0 then rows else take (Z.to_nat n) rows.

(** [sqa_query().filter(...).order_by(...).limit(n).all()] over the rows
    [table] of the message table. *)
Definition sqa_query (table : list DBChatMessage) (key : string) (sta n : Z)
  : list DBChatMessage :=
  sql_limit n (merge_sort ts_desc (filter (in_window key sta) table)).

(** [sta_timestamp = int(time.time() - config.AI_CHAT_CONTEXT_EXPIRE_SECONDS)],
    where [now] is what [time.time()] returned: the look-back, an int,
    is converted to a float, the difference is a float, and [int]
    truncates it.  [inl e] when an exception with the text [e] is
    raised. *)
Definition sta_timestamp (cfg : Config) (now : Py.float) : string + Z :=
  match Py.float_sub_int now (AI_CHAT_CONTEXT_EXPIRE_SECONDS cfg) with
  | inl e => inl e
  | inr d => Py.int_of_float d
  end.

(** [recent_chat_messages], given the value [sta] of [sta_timestamp]:
    the query result, [[::-1]], then [[-AI_CHAT_CONTEXT_MAX_LENGTH:]]. *)
Definition recent_chat_messages (cfg : Config) (sta : Z)
    (table : list DBChatMessage) (key : string) : list DBChatMessage :=
  Py.slice_from (- AI_CHAT_CONTEXT_MAX_LENGTH cfg)
    (reverse (sqa_query table key sta (AI_CHAT_CONTEXT_MAX_LENGTH cfg))).

(** ** Collaborators, events and the world *)

(** What [OpenAIPromptCreator] is built from: the system message (preset
    and the resolver example that embeds the one-time code), the user
    message (chat key and history) and a copy of the addition messages
    taken when the creator is built.  The instruction text and the
    sampling parameters are constants of the source. *)
Record Prompt := {
  prompt_chat_preset : string;
  prompt_one_time_code : string;
  prompt_chat_key : string;
  prompt_history : list DBChatMessage;
  prompt_addition : list PromptMessage
}.

(** The raw answer of the model backend. *)
Record ModelResponse := { response_text : string }.

(** Elements of [resolved_response.ret_list]: [(ret_data.type, ret_data.content)]. *)
Definition RetData : Type := ChatResponseType * string.

Inductive Exn :=
| SceneRuntimeError (msg : string)
| ResolveError (msg : string)
| Exception (msg : string).

(** One event per call that leaves [chat_agent.py].  [logger.info] calls
    only write to the process log and are left out, and with them the
    clock reads of lines 61 and 167, whose only use is the duration that
    the last [logger.info] prints; [logger.error] calls are kept. *)
Inductive Event :=
| EvUrandom (bs : list Byte.byte)
| EvTime (now : Py.float)
| EvQuery (key : string) (sta lim : Z) (rows : list DBChatMessage)
| EvSendMessage (key text : string)
| EvSendAgentMessage (key text : string) (record : option bool)
| EvSceneRun (p : Prompt) (r : string + ModelResponse)
| EvLogError (text : string)
| EvStrftime (stamp : string)
| EvSave (prompt_file response_file : string) (r : option string)
| EvRunCode (code from_chat_key result : string).

(** The configuration, the sandbox's error marker and the answers of the
    collaborators.  An answer may depend on everything that happened
    before the call.  [scene_run] and [resolve] answer [inl e] when they
    raise an exception whose text is [e]; [mr_save] answers [Some e] when
    it raises.  The chat transport, the sandbox, the database and the
    clock are taken to return, and the clock and the configured
    look-back are taken to be such that line 81 raises no
    [OverflowError] or [ValueError] ([clock_in_range]): the time is a
    finite float and the look-back is far from the largest float. *)
Record Env := {
  config : Config;
  CODE_RUN_ERROR_FLAG : string;
  entropy : list Event -> nat -> Byte.byte;
  time_time : list Event -> Py.float;
  time_strftime : list Event -> string;
  db_table : list Event -> list DBChatMessage;
  scene_run : list Event -> Prompt -> string + ModelResponse;
  resolve : ModelResponse -> string + list RetData;
  mr_save : list Event -> string -> string -> option string;
  limited_run_code : list Event -> string -> string -> string;
  clock_in_range : forall tr, exists sta, sta_timestamp config (time_time tr) = inr sta
}.

(** References to list objects. *)
Definition loc := nat.

Record World := {
  heap : list (list PromptMessage);
  trace : list Event
}.

Inductive Outcome (A : Type) :=
| Return (a : A)
| Raise (e : Exn)
| OutOfFuel.
Arguments Return {A} a.
Arguments Raise {A} e.
Arguments OutOfFuel {A}.

(** Computations: state passing over the world, with exceptions. *)
Definition M (A : Type) : Type := World -> Outcome A * World.

#[global] Instance M_ret : MRet M := fun A a w => (Return a, w).

#[global] Instance M_bind : MBind M := fun A B f m w =>
  match m w with
  | (Return a, w') => f a w'
  | (Raise e, w') => (Raise e, w')
  | (OutOfFuel, w') => (OutOfFuel, w')
  end.

Definition raise {A} (e : Exn) : M A := fun w => (Raise e, w).
Definition out_of_fuel {A} : M A := fun w => (OutOfFuel, w).

Definition get_trace : M (list Event) := fun w => (Return (trace w), w).

Definition emit (e : Event) : M unit :=
  fun w => (Return tt, {| heap := heap w; trace := trace w ++ [e] |}).

(** [[]]: a new list object. *)
Definition new_list : M loc :=
  fun w => (Return (length (heap w)), {| heap := heap w ++ [[]]; trace := trace w |}).

(** The current content of a list object. *)
Definition read_list (l : loc) : M (list PromptMessage) :=
  fun w => (Return (default [] (heap w !! l)), w).

(** [l.append(m)] *)
Definition list_append (l : loc) (m : PromptMessage) : M unit :=
  fun w => (Return tt, {| heap := alter (fun ms => ms ++ [m]) l (heap w); trace := trace w |}).

(** ** Calls to the collaborators *)

Section Calls.
Context (env : Env).

(** [os.urandom(n)] *)
Definition os_urandom (n : nat) : M (list Byte.byte) :=
  tr ← get_trace;
  let bs := map (entropy env tr) (seq 0 n) in
  emit (EvUrandom bs);; mret bs.

(** [time.time()] *)
Definition time_now : M Py.float :=
  tr ← get_trace;
  let now := time_time env tr in
  emit (EvTime now);; mret now.

(** [time.strftime('%Y%m%d%H%M%S')] *)
Definition strftime : M string :=
  tr ← get_trace;
  let s := time_strftime env tr in
  emit (EvStrftime s);; mret s.

(** [chat_service.send_message(chat_key, text)] *)
Definition send_message (key text : string) : M unit :=
  emit (EvSendMessage key text).

(** [chat_service.send_agent_message(chat_key, text[, record=...])] *)
Definition send_agent_message (key text : string) (record : option bool) : M unit :=
  emit (EvSendAgentMessage key text record).

(** [logger.error(text)] *)
Definition logger_error (text : string) : M unit := emit (EvLogError text).

(** [mr.save(prompt_file=..., response_file=...)]; the call is not
    guarded in [agent_run], an exception leaves the function. *)
Definition save (prompt_file response_file : string) : M unit :=
  tr ← get_trace;
  let r := mr_save env tr prompt_file response_file in
  emit (EvSave prompt_file response_file r);;
  match r with
  | None => mret tt
  | Some e => raise (Exception e)
  end.

(** [limited_run_code(code, from_chat_key=...)] *)
Definition run_code (code from_chat_key : string) : M string :=
  tr ← get_trace;
  let result := limited_run_code env tr code from_chat_key in
  emit (EvRunCode code from_chat_key result);; mret result.

(** Line 81 and the database read of step 2, and what is made of it. *)
Definition read_recent_chat_messages (key : string) : M (list DBChatMessage) :=
  now ← time_now;
  match sta_timestamp (config env) now with
  | inl e => raise (Exception e)
  | inr sta =>
      tr ← get_trace;
      let table := db_table env tr in
      let lim := AI_CHAT_CONTEXT_MAX_LENGTH (config env) in
      emit (EvQuery key sta lim (sqa_query table key sta lim));;
      mret (recent_chat_messages (config env) sta table key)
  end.

End Calls.

(** ** The agent loop *)

Section Agent.
Context (env : Env).

(** The type of [agent_run]: the message being answered, the reference
    bound to [addition_prompt_message] ([None] for Python's [None]) and
    [retry_depth]. *)
Definition AgentRun : Type := ChatMessage -> option loc -> Z -> M unit.

Definition script_message (ret_content : string) : PromptMessage :=
  AiMessage ("script:>" +:+ Py.nl +:+ ret_content).

Definition retry_message (err_msg : string) : PromptMessage :=
  UserMessage ("Code run error: " +:+ Py.str_or err_msg "No error message" +:+ Py.nl
    +:+ "Please maintain agreed reply format and try again.").

Definition give_up_message (err_msg : string) : PromptMessage :=
  UserMessage ("Code run error: " +:+ Py.str_or err_msg "No error message" +:+ Py.nl
    +:+ "The number of retries has reached the limit, you should give up retries and explain the problem you are experiencing.").

Definition debug_thinking : string := "[Debug] 思考中🤔...".
Definition debug_running : string := "[Debug] 执行程式中🖥️...".

Definition debug_retrying (err_msg : string) (retry_depth : Z) : string :=
  "[Debug] 程式运行出错: " +:+ Py.str_or err_msg "No error message" +:+ Py.nl
    +:+ "正在调试中...(" +:+ Py.str_of_int (retry_depth + 1) +:+ "/"
    +:+ Py.str_of_int (AI_SCRIPT_MAX_RETRY_TIMES (config env)) +:+ ")".

Definition max_retries_notice : string := "程式运行出错，达到最大重试次数，停止重试。".
Definition apology : string := "哎呀，请求模型发生了未知错误，等会儿再试试吧 ~".
Definition llm_fatal : string := "LLM API error: 达到最大重试次数，停止重试。".
Definition resolve_failed (e : string) : string := "解析结果出错: " +:+ e.

(** [if config.DEBUG_IN_CHAT: await chat_service.send_message(...)] *)
Definition debug_message (key text : string) : M unit :=
  if DEBUG_IN_CHAT (config env) then send_message key text else mret tt.

(** [agent_exec_result]; the recursive call goes through [agent_run]. *)
Definition agent_exec_result (agent_run : AgentRun)
    (ret_type : ChatResponseType) (ret_content : string)
    (chat_message : ChatMessage) (addition_prompt_message : loc)
    (retry_depth : Z) : M unit :=
  match ret_type with
  | TEXT =>
      send_agent_message (chat_key chat_message) ret_content (Some true)
  | SCRIPT =>
      debug_message (chat_key chat_message) debug_running;;
      result ← run_code env ret_content (chat_key chat_message);
      if Py.endswith result (CODE_RUN_ERROR_FLAG env) then
        let err_msg := Py.str_slice_to (- Py.len (CODE_RUN_ERROR_FLAG env)) result in
        list_append addition_prompt_message (script_message ret_content);;
        (if retry_depth <? AI_SCRIPT_MAX_RETRY_TIMES (config env) - 1
         then list_append addition_prompt_message (retry_message err_msg)
         else list_append addition_prompt_message (give_up_message err_msg));;
        if retry_depth <? AI_SCRIPT_MAX_RETRY_TIMES (config env) then
          debug_message (chat_key chat_message) (debug_retrying err_msg retry_depth);;
          agent_run chat_message (Some addition_prompt_message) (retry_depth + 1)
        else
          send_message (chat_key chat_message) max_retries_notice
      else mret tt
  end.

(** [for _ in range(n): try: mr = await scene.run(); break
    except Exception as e: logger.error(...)]; [None] when the loop ends
    without [break], which is when the [else] branch runs. *)
Fixpoint model_loop (p : Prompt) (n : nat) : M (option ModelResponse) :=
  match n with
  | O => mret None
  | S n' =>
      tr ← get_trace;
      let r := scene_run env tr p in
      emit (EvSceneRun p r);;
      match r with
      | inr mr => mret (Some mr)
      | inl e => logger_error ("LLM API error: " +:+ e);; model_loop p n'
      end
  end.

(** [for ret_data in resolved_response.ret_list: await agent_exec_result(...)] *)
Fixpoint exec_ret_list (exec : ChatResponseType -> string -> M unit)
    (ret_list : list RetData) : M unit :=
  match ret_list with
  | [] => mret tt
  | (ret_type, ret_content) :: rest =>
      exec ret_type ret_content;; exec_ret_list exec rest
  end.

(** [if not addition_prompt_message: addition_prompt_message = []] *)
Definition bind_addition (addition_prompt_message : option loc) : M loc :=
  match addition_prompt_message with
  | None => new_list
  | Some l =>
      ms ← read_list l;
      match ms with
      | [] => new_list
      | _ :: _ => mret l
      end
  end.

(** Steps 1 to 4 of [agent_run]: the one-time code, the list bound to
    [addition_prompt_message], the history and the prompt.  The prompt
    creator receives [*addition_prompt_message], a copy of the list as
    it is at that point. *)
Definition prepare (chat_message : ChatMessage)
    (addition_prompt_message : option loc) : M (loc * Prompt) :=
  bs ← os_urandom env 4;
  let one_time_code := Py.hex bs in
  addition ← bind_addition addition_prompt_message;
  debug_message (chat_key chat_message) debug_thinking;;
  recent ← read_recent_chat_messages env (chat_key chat_message);
  extra ← read_list addition;
  mret (addition, {|
    prompt_chat_preset := AI_CHAT_PRESET_SETTING (config env);
    prompt_one_time_code := one_time_code;
    prompt_chat_key := chat_key chat_message;
    prompt_history := recent;
    prompt_addition := extra |}).

(** Step 6 of [agent_run]: the two calls of [mr.save]. *)
Definition persist : M unit :=
  save env ".temp/chat_prompt-latest.txt" ".temp/chat_response-latest.json";;
  stamp1 ← strftime env;
  stamp2 ← strftime env;
  save env (".temp/prompts/chat_prompt-" +:+ stamp1 +:+ ".txt")
           (".temp/prompts/chat_response-" +:+ stamp2 +:+ ".json").

(** What [agent_run] does once the loop of step 5 is over: the [else]
    branch of the loop when no attempt succeeded, otherwise the
    resolution of the response, the two saves (step 6) and the
    execution of the resolved actions (step 7). *)
Definition respond (agent_run : AgentRun) (chat_message : ChatMessage)
    (addition : loc) (retry_depth : Z) (omr : option ModelResponse) : M unit :=
  match omr with
  | None =>
      send_agent_message (chat_key chat_message) apology None;;
      raise (SceneRuntimeError llm_fatal)
  | Some mr =>
      match resolve env mr with
      | inl e =>
          logger_error (resolve_failed e);;
          raise (ResolveError (resolve_failed e))
      | inr ret_list =>
          persist;;
          exec_ret_list
            (fun ret_type ret_content =>
               agent_exec_result agent_run ret_type ret_content chat_message
                 addition retry_depth)
            ret_list
      end
  end.

(** The body of [agent_run], with the function it calls recursively
    (through [agent_exec_result]) as a parameter. *)
Definition agent_run_body (agent_run : AgentRun) : AgentRun :=
  fun chat_message addition_prompt_message retry_depth =>
  '(addition, prompt) ← prepare chat_message addition_prompt_message;
  omr ← model_loop prompt (Z.to_nat (AI_CHAT_LLM_API_MAX_RETRIES (config env)));
  respond agent_run chat_message addition retry_depth omr.

(** The recursion of [agent_run] through [agent_exec_result], cut after
    [fuel] nested invocations. *)
Fixpoint agent_run_fuel (fuel : nat) : AgentRun :=
  match fuel with
  | O => fun _ _ _ => out_of_fuel
  | S fuel' => agent_run_body (agent_run_fuel fuel')
  end.

(** An invocation at depth [d] nests at most
    [AI_SCRIPT_MAX_RETRY_TIMES - d] further invocations. *)
Definition fuel_for (retry_depth : Z) : nat :=
  S (Z.to_nat (AI_SCRIPT_MAX_RETRY_TIMES (config env) - retry_depth)).

(** [agent_run(chat_message, addition_prompt_message, retry_depth)] *)
Definition agent_run : AgentRun :=
  fun chat_message addition_prompt_message retry_depth =>
    agent_run_fuel (fuel_for retry_depth)
      chat_message addition_prompt_message retry_depth.

End Agent.

(** ** Observations on traces *)

Definition is_invocation (e : Event) : bool :=
  match e with EvUrandom _ => true | _ => false end.
Definition is_model_call (e : Event) : bool :=
  match e with EvSceneRun _ _ => true | _ => false end.
Definition is_error_log (e : Event) : bool :=
  match e with EvLogError _ => true | _ => false end.
Definition is_agent_message (e : Event) : bool :=
  match e with EvSendAgentMessage _ _ _ => true | _ => false end.
Definition is_sandbox_call (e : Event) : bool :=
  match e with EvRunCode _ _ _ => true | _ => false end.
Definition is_save (e : Event) : bool :=
  match e with EvSave _ _ _ => true | _ => false end.

Definition is_channel_message (e : Event) : bool :=
  match e with EvSendMessage _ _ | EvSendAgentMessage _ _ _ => true | _ => false end.

(** The prompts of the model calls of a trace, in order. *)
Definition model_prompts (tr : list Event) : list Prompt :=
  omap (fun e => match e with EvSceneRun p _ => Some p | _ => None end) tr.

(** How many events of a kind a trace holds. *)
Definition count (kind : Event -> bool) (tr : list Event) : nat :=
  length (List.filter kind tr).

(** The events that [w'] has after those of [w]. *)
Definition new_events (w w' : World) : list Event :=
  drop (length (trace w)) (trace w').

(** What [debug_message] adds to the trace. *)
Definition debug_events (env : Env) (key text : string) : list Event :=
  if DEBUG_IN_CHAT (config env) then [EvSendMessage key text] else [].

(** What the sandbox answers to the script [code] run from world [w]. *)
Definition sandbox_result (env : Env) (code : string) (cm : ChatMessage) (w : World) : string :=
  limited_run_code env
    (trace w ++ debug_events env (chat_key cm) (debug_running))
    code (chat_key cm).

(** The error text recovered from a failed sandbox result:
    [result[: -len(CODE_RUN_ERROR_FLAG)]]. *)
Definition err_msg_of (env : Env) (result : string) : string :=
  Py.str_slice_to (- Py.len (CODE_RUN_ERROR_FLAG env)) result.

(** In the words of the specification, the user-authored entry that
    answers a failed script at depth [retry_depth]: the request to retry
    when [retry_depth + 1] is below the maximum, the request to give up
    otherwise. *)
Definition failure_reply (env : Env) (err_msg : string) (retry_depth : Z) : PromptMessage :=
  if retry_depth + 1 <? AI_SCRIPT_MAX_RETRY_TIMES (config env)
  then retry_message err_msg
  else give_up_message err_msg.

(** In the words of the specification, the world once a script has
    failed and its two entries have been added to the list at [l]: the
    sandbox call is in the trace, the list ends with the script and the
    reply.  [agent_exec_result_failure] compares it with what the code
    does. *)
Definition after_script_failure (env : Env) (code : string) (cm : ChatMessage)
    (l : loc) (retry_depth : Z) (w : World) : World :=
  let result := sandbox_result env code cm w in
  {| heap := alter (fun ms => ms ++ [script_message code;
                                     failure_reply env (err_msg_of env result) retry_depth])
               l (heap w);
     trace := trace w ++ debug_events env (chat_key cm) debug_running
                ++ [EvRunCode code (chat_key cm) result] |}.

(** ** Example environments *)

Module Examples.

Definition cfg (debug : bool) (llm_retries script_retries : Z) : Config := {|
  DEBUG_IN_CHAT := debug;
  AI_CHAT_PRESET_SETTING := "You are a helpful cat.";
  AI_CHAT_CONTEXT_EXPIRE_SECONDS := 600;
  AI_CHAT_CONTEXT_MAX_LENGTH := 2;
  AI_CHAT_LLM_API_MAX_RETRIES := llm_retries;
  AI_SCRIPT_MAX_RETRY_TIMES := script_retries |}.

Definition turn (key : string) (ts : Z) (text : string) : DBChatMessage :=
  {| db_chat_key := key; db_sender := "alice"; send_timestamp := ts; db_content := text |}.

Definition table0 : list DBChatMessage :=
  [turn "group_1" 700 "c"; turn "group_1" 400 "a"; turn "group_2" 650 "x";
   turn "group_1" 650 "b"; turn "group_1" 399 "old"].

Definition cm0 : ChatMessage := {| chat_key := "group_1"; sender_nickname := "alice" |}.

Definition w0 : World := {| heap := []; trace := [] |}.

(** The float 1000.5, what the clock of the examples shows. *)
Definition now0 : Py.float := SpecFloat.S754_finite false 8800491068719104 (-43).

(** Configurations with which line 81 goes through at that time. *)
Class InRange (c : Config) : Prop :=
  in_range : exists sta, sta_timestamp c now0 = inr sta.

#[global] Instance cfg_in_range debug llm_retries script_retries :
  InRange (cfg debug llm_retries script_retries) := ex_intro _ 400 eq_refl.

(** The model answers with what [actions] gives for the number of
    model calls made so far; the sandbox answers [sandbox]. *)
Definition env_of (c : Config) `{!InRange c} (llm : nat -> string + ModelResponse)
    (actions : ModelResponse -> string + list RetData)
    (saving : string -> option string) (sandbox : string) : Env := {|
  config := c;
  CODE_RUN_ERROR_FLAG := "[CODE_RUN_ERROR]";
  entropy := fun tr i =>
    default Byte.x00 (Byte.of_N (N.of_nat (17 * length tr + 59 * i + 10) mod 256));
  time_time := fun _ => now0;
  time_strftime := fun _ => "20240101120000";
  db_table := fun _ => table0;
  scene_run := fun tr _ => llm (count is_model_call tr);
  resolve := actions;
  mr_save := fun _ prompt_file _ => saving prompt_file;
  limited_run_code := fun _ _ _ => sandbox;
  clock_in_range := fun _ => in_range |}.

(** Scenario A: one text action. *)
Definition env_text : Env :=
  env_of (cfg false 3 2) (fun _ => inr {| response_text := "Hello" |})
    (fun mr => inr [(TEXT, response_text mr)]) (fun _ => None) "".

(** A script that always fails, with at most one retry configured. *)
Definition env_script_fails : Env :=
  env_of (cfg false 3 1) (fun _ => inr {| response_text := "boom()" |})
    (fun mr => inr [(SCRIPT, response_text mr)]) (fun _ => None)
    "NameError: boom[CODE_RUN_ERROR]".

(** The backend never answers. *)
Definition env_backend_down : Env :=
  env_of (cfg false 3 2) (fun _ => inl "timeout")
    (fun mr => inr [(TEXT, response_text mr)]) (fun _ => None) "".

(** The backend answers at the second attempt. *)
Definition env_second_attempt : Env :=
  env_of (cfg false 3 2)
    (fun n => match n with O => inl "timeout" | _ => inr {| response_text := "Hello" |} end)
    (fun mr => inr [(TEXT, response_text mr)]) (fun _ => None) "".

(** The response does not resolve. *)
Definition env_unresolved : Env :=
  env_of (cfg false 3 2) (fun _ => inr {| response_text := "no code" |})
    (fun mr => inl "one time code mismatch") (fun _ => None) "".

(** Saving raises. *)
Definition env_disk_full : Env :=
  env_of (cfg false 3 2) (fun _ => inr {| response_text := "Hello" |})
    (fun mr => inr [(TEXT, response_text mr)]) (fun _ => Some "disk full") "".

End Examples.

(** ** Predicates on computations and relations between worlds *)

(** [m] never runs out of fuel. *)
Definition safe {A} (m : M A) : Prop := forall w, (m w).1 <> OutOfFuel.

(** Whatever the world [m] starts from, the world it ends in is related
    to it by [R]. *)
Definition steps (R : relation World) {A} (m : M A) : Prop :=
  forall w, R w (m w).2.

(** Events are only ever added at the end of the trace. *)
Definition grows : relation World :=
  fun w w' => trace w `prefix_of` trace w'.

(** The list object at [l], when there is one, is left as it is. *)
Definition keeps (l : loc) : relation World :=
  fun w w' => forall ms, heap w !! l = Some ms -> heap w' !! l = Some ms.

(** Events that neither draw a one-time code nor use one. *)
Definition quiet (e : Event) : bool :=
  match e with
  | EvUrandom _ | EvQuery _ _ _ _ | EvSceneRun _ _ => false
  | _ => true
  end.

(** A monitor of the one-time codes in a trace.  It remembers the code of
    the last draw and whether an invocation has already read its history
    under that code.  A draw must have four bytes; a history read needs a
    code that no earlier read has used; a model call must carry the code
    of the last draw, after the history read. *)
Record CodeState := {
  current_code : option string;
  code_unused : bool
}.

Definition code_step (s : CodeState) (e : Event) : option CodeState :=
  match e with
  | EvUrandom bs =>
      if bool_decide (length bs = 4%nat)
      then Some {| current_code := Some (Py.hex bs); code_unused := true |}
      else None
  | EvQuery _ _ _ _ =>
      if code_unused s
      then Some {| current_code := current_code s; code_unused := false |}
      else None
  | EvSceneRun p _ =>
      if bool_decide (current_code s = Some (prompt_one_time_code p)) && negb (code_unused s)
      then Some s
      else None
  | _ => Some s
  end.

Fixpoint code_run (s : CodeState) (tr : list Event) : option CodeState :=
  match tr with
  | [] => Some s
  | e :: tr' =>
      match code_step s e with
      | Some s' => code_run s' tr'
      | None => None
      end
  end.

Definition code_start : CodeState := {| current_code := None; code_unused := false |}.

(** Every invocation in the trace drew its own code and called the model
    with it. *)
Definition codes_fresh (tr : list Event) : Prop := is_Some (code_run code_start tr).

Definition keeps_codes_fresh : relation World :=
  fun w w' => codes_fresh (trace w) -> codes_fresh (trace w').

(** Eight hexadecimal digits. *)
Definition is_one_time_code (s : string) : Prop :=
  length (Py.chars s) = 8%nat /\ Forall (fun c => Py.is_hex_digit c = true) (Py.chars s).

#[global] Instance DBChatMessage_eq_dec : EqDecision DBChatMessage.
Proof. solve_decision. Defined.

(** ** Shapes of the events of a run *)

Definition is_query (e : Event) : bool :=
  match e with EvQuery _ _ _ _ => true | _ => false end.

(** The events that [respond] and [agent_exec_result] emit while they
    answer the message [cm]: messages to its channel (a recorded reply,
    the apology, the notice of the maximum, and the two debug notices
    when debugging is on), error logs, clock reads, saves to the two
    fixed files or to a stamped pair under [.temp/prompts/], and sandbox
    runs on behalf of its channel. *)
Definition action_event (env : Env) (cm : ChatMessage) (e : Event) : Prop :=
  match e with
  | EvSendMessage key text =>
      key = chat_key cm
      /\ (text = max_retries_notice
          \/ (DEBUG_IN_CHAT (config env) = true
              /\ (text = debug_running
                  \/ exists err_msg retry_depth, text = debug_retrying env err_msg retry_depth)))
  | EvSendAgentMessage key text record =>
      key = chat_key cm /\ (record = Some true \/ (record = None /\ text = apology))
  | EvLogError _ => True
  | EvStrftime _ => True
  | EvSave prompt_file response_file _ =>
      (prompt_file = ".temp/chat_prompt-latest.txt"
       /\ response_file = ".temp/chat_response-latest.json")
      \/ (exists stamp1 stamp2,
            prompt_file = ".temp/prompts/chat_prompt-" +:+ stamp1 +:+ ".txt"
            /\ response_file = ".temp/prompts/chat_response-" +:+ stamp2 +:+ ".json")
  | EvRunCode _ from_chat_key _ => from_chat_key = chat_key cm
  | _ => False
  end.

(** The events of a whole invocation for [cm]: those above, and those of
    steps 1 to 5: a draw of four bytes, the debug notice of step 1, a
    clock read, a history read for the channel under the configured
    limit, and model calls whose prompt is about the channel and carries
    a history of turns of the channel, at most the configured number of
    them when that number is not negative. *)
Definition loop_event (env : Env) (cm : ChatMessage) (e : Event) : Prop :=
  action_event env cm e
  \/ match e with
     | EvUrandom bs => length bs = 4%nat
     | EvTime _ => True
     | EvQuery key _ lim _ =>
         key = chat_key cm /\ lim = AI_CHAT_CONTEXT_MAX_LENGTH (config env)
     | EvSendMessage key text =>
         key = chat_key cm /\ DEBUG_IN_CHAT (config env) = true /\ text = debug_thinking
     | EvSceneRun p _ =>
         prompt_chat_key p = chat_key cm
         /\ prompt_chat_preset p = AI_CHAT_PRESET_SETTING (config env)
         /\ Forall (fun m => db_chat_key m = chat_key cm) (prompt_history p)
         /\ (0 <= AI_CHAT_CONTEXT_MAX_LENGTH (config env) ->
             (length (prompt_history p)
                <= Z.to_nat (AI_CHAT_CONTEXT_MAX_LENGTH (config env)))%nat)
     | _ => False
     end.

(** [w'] has the events of [w] and then only events of an invocation for
    [cm]. *)
Definition shaped (env : Env) (cm : ChatMessage) : relation World :=
  fun w w' => exists ext, trace w' = trace w ++ ext /\ Forall (loop_event env cm) ext.

(** Entries in pairs: an assistant-authored one, then a user-authored
    one. *)
Definition pair_entries (pairs : list (string * string)) : list PromptMessage :=
  concat (map (fun su => [AiMessage su.1; UserMessage su.2]) pairs).

(** The list at [l], when there is one, has only got whole pairs of
    entries at its end. *)
Definition grows_in_pairs (l : loc) : relation World :=
  fun w w' => forall ms, heap w !! l = Some ms ->
    exists pairs, heap w' !! l = Some (ms ++ pair_entries pairs).

(** Between [w] and [w'] there are at most
    [AI_CHAT_LLM_API_MAX_RETRIES] model calls for each draw of a code,
    and as many history reads as draws. *)
Definition within_budget (env : Env) : relation World :=
  fun w w' =>
    let n := Z.to_nat (AI_CHAT_LLM_API_MAX_RETRIES (config env)) in
    (count is_model_call (trace w') + n * count is_invocation (trace w)
       <= count is_model_call (trace w) + n * count is_invocation (trace w'))%nat
    /\ (count is_query (trace w') + count is_invocation (trace w)
        = count is_query (trace w) + count is_invocation (trace w'))%nat.

(** What an invocation has used of its budget: whether it has read the
    history, and how many model calls it has made. *)
Record Spent := {
  has_read : bool;
  calls_made : nat
}.

(** A monitor of the budget of each invocation in a trace, nested ones
    included, with [n] model calls allowed.  The state is [None] before
    the first draw of a code.  A draw starts an invocation and needs the
    one before it to have read its history; the history read is the
    only one of its invocation; a model call comes after the history
    read and is at most the [n]-th of its invocation. *)
Definition budget_step (n : nat) (s : option Spent) (e : Event) : option (option Spent) :=
  match e with
  | EvUrandom _ =>
      match s with
      | Some {| has_read := false |} => None
      | _ => Some (Some {| has_read := false; calls_made := 0 |})
      end
  | EvQuery _ _ _ _ =>
      match s with
      | Some {| has_read := false; calls_made := c |} =>
          Some (Some {| has_read := true; calls_made := c |})
      | _ => None
      end
  | EvSceneRun _ _ =>
      match s with
      | Some {| has_read := true; calls_made := c |} =>
          if bool_decide (c < n)%nat
          then Some (Some {| has_read := true; calls_made := S c |})
          else None
      | _ => None
      end
  | _ => Some s
  end.

Fixpoint budget_run (n : nat) (s : option Spent) (tr : list Event)
  : option (option Spent) :=
  match tr with
  | [] => Some s
  | e :: tr' =>
      match budget_step n s e with
      | Some s' => budget_run n s' tr'
      | None => None
      end
  end.

(** No invocation is under way that has not read its history. *)
Definition has_read_history (s : option Spent) : Prop :=
  match s with
  | Some {| has_read := false |} => False
  | _ => True
  end.

(** What was added between [w] and [w'] takes the monitor from a state
    where the history is read to a state where the history is read. *)
Definition spends_within (env : Env) : relation World :=
  fun w w' => exists ext, trace w' = trace w ++ ext
    /\ forall s, has_read_history s ->
         exists s', budget_run (Z.to_nat (AI_CHAT_LLM_API_MAX_RETRIES (config env))) s ext
                    = Some s'
                    /\ has_read_history s'.

(** The number of invocations of a chain that is [h] levels deep when
    every response has at most [k] actions. *)
Fixpoint chain_bound (k h : nat) : nat :=
  match h with
  | O => 1
  | S h' => 1 + k * chain_bound k h'
  end.

(** [m] adds at most [b] draws of a code to the trace. *)
Definition adds_at_most (b : nat) {A} (m : M A) : Prop :=
  forall w, (count is_invocation (trace (m w).2) <= count is_invocation (trace w) + b)%nat.

(** The world in which a failed script action enters [agent_run] again:
    the two entries are in the list and the debug notice of the retry,
    if any, is out. *)
Definition before_retry (env : Env) (code : string) (cm : ChatMessage)
    (l : loc) (retry_depth : Z) (w : World) : World :=
  {| heap := heap (after_script_failure env code cm l retry_depth w);
     trace := trace (after_script_failure env code cm l retry_depth w)
       ++ debug_events env (chat_key cm)
            (debug_retrying env (err_msg_of env (sandbox_result env code cm w)) retry_depth) |}.

(** ** How a run ends *)

(** A model call that was answered, a save that went through, a message
    sent by [send_agent_message] without [record] (the apology is the
    only one in [chat_agent.py]). *)
Definition is_answer (e : Event) : bool :=
  match e with EvSceneRun _ (inr _) => true | _ => false end.
Definition is_saved (e : Event) : bool :=
  match e with EvSave _ _ None => true | _ => false end.
Definition is_unrecorded (e : Event) : bool :=
  match e with EvSendAgentMessage _ _ None => true | _ => false end.

(** Events that are none of: a draw of a code, a model call, a save, an
    unrecorded message. *)
Definition uneventful (e : Event) : bool :=
  match e with
  | EvUrandom _ | EvSceneRun _ _ | EvSave _ _ _ | EvSendAgentMessage _ _ None => false
  | _ => true
  end.

(** How far an invocation has got: it has drawn its code, it has an
    answer of the model, it has saved the answer once, twice. *)
Inductive Progress := Drawn | Answered | SavedOnce | SavedTwice.

(** A monitor of the invocations in a trace, nested ones included.  The
    events from a draw of a code up to the next draw are those of the
    invocation that made the draw, followed by events of the actions of
    the invocations around it.  The state is [None] before the first
    draw.  A draw needs the invocation before it to have saved twice;
    a model call that fails needs an invocation without an answer yet;
    the answer makes it [Answered]; a save that goes through needs an
    answer and is the first or the second; a save that fails and an
    unrecorded message are refused. *)
Definition answer_step (s : option Progress) (e : Event) : option (option Progress) :=
  match e with
  | EvUrandom _ =>
      match s with
      | None | Some SavedTwice => Some (Some Drawn)
      | _ => None
      end
  | EvSceneRun _ (inl _) =>
      match s with Some Drawn => Some s | _ => None end
  | EvSceneRun _ (inr _) =>
      match s with Some Drawn => Some (Some Answered) | _ => None end
  | EvSave _ _ None =>
      match s with
      | Some Answered => Some (Some SavedOnce)
      | Some SavedOnce => Some (Some SavedTwice)
      | _ => None
      end
  | EvSave _ _ (Some _) => None
  | EvSendAgentMessage _ _ None => None
  | _ => Some s
  end.

Fixpoint answer_run (s : option Progress) (tr : list Event) : option (option Progress) :=
  match tr with
  | [] => Some s
  | e :: tr' =>
      match answer_step s e with
      | Some s' => answer_run s' tr'
      | None => None
      end
  end.

(** No invocation is under way, or the last one has saved twice. *)
Definition all_saved (s : option Progress) : Prop :=
  s = None \/ s = Some SavedTwice.

(** What was added between [w] and [w'] takes the monitor from a state
    where all is saved to a state where all is saved. *)
Definition completes : relation World :=
  fun w w' => exists ext, trace w' = trace w ++ ext
    /\ forall s, all_saved s -> exists s', answer_run s ext = Some s' /\ all_saved s'.

(** Between [w] and [w'] there are as many answered model calls as draws
    of a code, two saves that went through for each draw, no save that
    failed and no unrecorded message. *)
Definition answered : relation World :=
  fun w w' =>
    (count is_answer (trace w') + count is_invocation (trace w)
     = count is_answer (trace w) + count is_invocation (trace w'))%nat
    /\ (count is_saved (trace w') + 2 * count is_invocation (trace w)
        = count is_saved (trace w) + 2 * count is_invocation (trace w'))%nat
    /\ (count is_save (trace w') + count is_saved (trace w)
        = count is_save (trace w) + count is_saved (trace w'))%nat
    /\ count is_unrecorded (trace w') = count is_unrecorded (trace w).

(** [m] keeps [R] whenever it returns. *)
Definition returns (R : relation World) {A} (m : M A) : Prop :=
  forall w a w', m w = (Return a, w') -> R w w'.

(** Whenever [m] raises, the exception and the trace it leaves satisfy
    [P]. *)
Definition raises (P : Exn -> list Event -> Prop) {A} (m : M A) : Prop :=
  forall w e w', m w = (Raise e, w') -> P e (trace w').

(** The last event of [tr] is the one that precedes the [raise] of [e]
    in [agent_run]: the apology before [SceneRuntimeError], the error
    log before [ResolveError]; an exception of [mr.save] is not caught,
    the last event is that call. *)
Definition raised_after (cm : ChatMessage) (e : Exn) (tr : list Event) : Prop :=
  match e with
  | SceneRuntimeError msg =>
      msg = llm_fatal
      /\ last tr = Some (EvSendAgentMessage (chat_key cm) apology None)
  | ResolveError msg =>
      (exists err, msg = resolve_failed err) /\ last tr = Some (EvLogError msg)
  | Exception msg =>
      exists prompt_file response_file,
        last tr = Some (EvSave prompt_file response_file (Some msg))
  end.

(** ** The lists a run makes *)

(** The list object at [l] holds an entry. *)
Definition nonempty_at (l : loc) (w : World) : Prop :=
  default [] (heap w !! l) <> [].

(** When the list at [l] holds an entry in [w], no list object was made
    between [w] and [w'] and the list at [l] still holds an entry. *)
Definition shares (l : loc) : relation World :=
  fun w w' => nonempty_at l w -> length (heap w') = length (heap w) /\ nonempty_at l w'.

(** The events of model calls that failed with the texts [errs], each
    followed by its error log. *)
Definition failed_attempts (p : Prompt) (errs : list string) : list Event :=
  concat (map (fun e => [EvSceneRun p (inl e); EvLogError ("LLM API error: " +:+ e)]) errs).

Module Scenarios.

(** The backend answers the first call with a script that fails, and is
    down afterwards. *)
Definition env_down_at_retry : Env :=
  Examples.env_of (Examples.cfg false 2 2)
    (fun n => match n with O => inr {| response_text := "boom()" |} | _ => inl "timeout" end)
    (fun mr => inr [(SCRIPT, response_text mr); (TEXT, "done")]) (fun _ => None)
    "NameError: boom[CODE_RUN_ERROR]".

(** Debugging is on and the script keeps failing. *)
Definition env_debug : Env :=
  Examples.env_of (Examples.cfg true 3 1) (fun _ => inr {| response_text := "boom()" |})
    (fun mr => inr [(SCRIPT, response_text mr)]) (fun _ => None)
    "NameError: boom[CODE_RUN_ERROR]".

(** The sandbox answers with the marker and nothing else. *)
Definition env_bare_marker : Env :=
  Examples.env_of (Examples.cfg false 3 1) (fun _ => inr {| response_text := "boom()" |})
    (fun mr => inr [(SCRIPT, response_text mr)]) (fun _ => None)
    "[CODE_RUN_ERROR]".

(** The marker is the empty string and the sandbox reports success. *)
Definition env_empty_marker : Env := {|
  config := Examples.cfg false 3 1;
  CODE_RUN_ERROR_FLAG := "";
  entropy := entropy Examples.env_text;
  time_time := time_time Examples.env_text;
  time_strftime := time_strftime Examples.env_text;
  db_table := db_table Examples.env_text;
  scene_run := scene_run Examples.env_text;
  resolve := resolve Examples.env_text;
  mr_save := mr_save Examples.env_text;
  limited_run_code := fun _ _ _ => "42";
  clock_in_range := clock_in_range Examples.env_text |}.

End Scenarios.

(** * Properties *)

(** ** Python primitives *)

(** [l[-n:]] keeps everything when [l] has at most [n] elements. *)
Lemma slice_from_neg_short {A} (n : Z) (l : list A) :
  Z.of_nat (length l) <= n -> Py.slice_from (- n) l = l.
Proof.
  intros Hn. unfold Py.slice_from, Py.slice_index.
  destruct (- n <? 0) eqn:E.
  - replace (Z.to_nat (Z.of_nat (length l) + - n)) with 0%nat by lia. done.
  - apply Z.ltb_ge in E. assert (n = 0) as -> by lia. simpl. done.
Qed.

(** [int(x)] is within one of the number that [x] denotes, on either
    side. *)
Lemma int_of_float_near x z :
  Py.int_of_float x = inr z ->
  (Py.float_value x - 1 < inject_Z z)%Q /\ (inject_Z z < Py.float_value x + 1)%Q.
Proof.
  destruct x as [s|s| |s m e]; simpl; try discriminate; intros [= <-].
  - split; reflexivity.
  - destruct (0 <=? e) eqn:He.
    + unfold Qlt, Qminus, Qplus, Qopp, inject_Z. simpl. lia.
    + apply Z.leb_gt in He.
      assert (0 < 2 ^ (- e)) as Hk by (apply Z.pow_pos_nonneg; lia).
      pose proof (Z.div_mod (Z.pos m) (2 ^ (- e)) ltac:(lia)) as Hdm.
      pose proof (Z.mod_pos_bound (Z.pos m) (2 ^ (- e)) Hk) as Hmod.
      unfold Qlt, Qminus, Qplus, Qopp, inject_Z. cbn [Qnum Qden].
      rewrite !Z2Pos.id by lia.
      destruct s; cbn [SpecFloat.cond_Zopp]; nia.
Qed.

(** Line 81 gives an int exactly when the look-back converts to a float
    and the difference is finite; the int is the truncated difference. *)
Lemma sta_timestamp_inr cfg now sta :
  sta_timestamp cfg now = inr sta ->
  exists d, Py.float_sub_int now (AI_CHAT_CONTEXT_EXPIRE_SECONDS cfg) = inr d
            /\ Py.int_of_float d = inr sta.
Proof.
  unfold sta_timestamp.
  destruct (Py.float_sub_int now (AI_CHAT_CONTEXT_EXPIRE_SECONDS cfg)) as [e|d]; [done|].
  eauto.
Qed.

Lemma chars_str l : Py.chars (Py.str l) = l.
Proof. apply list_ascii_of_string_of_list_ascii. Qed.

Lemma str_chars s : Py.str (Py.chars s) = s.
Proof. apply string_of_list_ascii_of_string. Qed.

Lemma hex_digit_ok n : Py.is_hex_digit (Py.hex_digit n) = true.
Proof.
  destruct n as [|p]; [reflexivity|].
  do 5 (try destruct p as [p|p|]; try reflexivity).
Qed.

(** [bs.hex()] has two characters per byte, all of them hexadecimal
    digits in lower case. *)
Lemma hex_length bs : length (Py.chars (Py.hex bs)) = (2 * length bs)%nat.
Proof.
  unfold Py.hex. rewrite chars_str.
  induction bs as [|b bs IH]; simpl; [done|]. rewrite IH. lia.
Qed.

Lemma hex_digits bs : Forall (fun c => Py.is_hex_digit c = true) (Py.chars (Py.hex bs)).
Proof.
  unfold Py.hex. rewrite chars_str.
  induction bs as [|b bs IH]; simpl; [constructor|].
  repeat constructor; auto using hex_digit_ok.
Qed.

Lemma str_app l1 l2 : Py.str (l1 ++ l2) = Py.str l1 +:+ Py.str l2.
Proof. unfold Py.str. induction l1 as [|c l1 IH]; simpl; [done|]. by rewrite IH. Qed.

Lemma chars_nil s : Py.chars s = [] -> s = "".
Proof. intros Hs. rewrite <- (str_chars s), Hs. reflexivity. Qed.

(** A string that ends with a non-empty suffix is what [s[:-len(suf)]]
    keeps of it, followed by the suffix. *)
Lemma endswith_slice s suf :
  suf <> "" ->
  Py.endswith s suf = true ->
  s = Py.str_slice_to (- Py.len suf) s +:+ suf.
Proof.
  intros Hne Hend. unfold Py.endswith in Hend. apply bool_decide_eq_true in Hend.
  unfold Py.str_slice_to, Py.slice_to, Py.slice_index, Py.len.
  assert (length (Py.chars suf) <> 0%nat) as Hlen.
  { intros Hz. apply Hne, chars_nil. by apply nil_length_inv. }
  assert (length (Py.chars suf) <= length (Py.chars s))%nat as Hle.
  { pose proof (f_equal length Hend) as Hl. rewrite length_drop in Hl. lia. }
  replace (- Z.of_nat (length (Py.chars suf)) <? 0) with true
    by (symmetry; apply Z.ltb_lt; lia).
  replace (Z.to_nat (Z.of_nat (length (Py.chars s)) + - Z.of_nat (length (Py.chars suf))))
    with (length (Py.chars s) - length (Py.chars suf))%nat by lia.
  set (k := (length (Py.chars s) - length (Py.chars suf))%nat) in *.
  transitivity (Py.str (take k (Py.chars s) ++ Py.chars suf)).
  - by rewrite <- Hend, take_drop, str_chars.
  - by rewrite str_app, str_chars.
Qed.

(** ** The context window *)

Section ContextWindowFacts.

#[local] Instance ts_desc_trans : Transitive ts_desc.
Proof. unfold ts_desc. intros a b c ? ?. lia. Qed.

#[local] Instance ts_desc_total : Total ts_desc.
Proof. unfold ts_desc. intros a b. lia. Qed.

#[local] Instance ts_asc_trans : Transitive ts_asc.
Proof. unfold ts_asc. intros a b c ? ?. lia. Qed.

Lemma Sorted_take {A} (R : relation A) `{!Transitive R} n (l : list A) :
  Sorted R l -> Sorted R (take n l).
Proof.
  intros Hs. apply Sorted_StronglySorted in Hs; [|done].
  rewrite <- (take_drop n l) in Hs.
  apply StronglySorted_Sorted. eapply StronglySorted_app_1_l. exact Hs.
Qed.

Lemma sql_limit_nonneg n rows : 0 <= n -> sql_limit n rows = take (Z.to_nat n) rows.
Proof. intros Hn. unfold sql_limit. by replace (n <? 0) with false by lia. Qed.

Lemma sql_limit_rows n rows : sql_limit n rows ⊆ rows.
Proof. unfold sql_limit. destruct (n <? 0); [done|apply subseteq_take]. Qed.

(** The rows of a query are rows of the table that pass the filter. *)
Lemma sqa_query_rows table key sta n m :
  m ∈ sqa_query table key sta n -> m ∈ table /\ in_window key sta m.
Proof.
  unfold sqa_query. intros Hm.
  apply sql_limit_rows in Hm.
  rewrite merge_sort_Permutation in Hm.
  apply list_elem_of_filter in Hm. tauto.
Qed.

(** They come newest first. *)
Lemma sqa_query_sorted table key sta n :
  Sorted ts_desc (sqa_query table key sta n).
Proof.
  unfold sqa_query, sql_limit.
  destruct (n <? 0); [|apply Sorted_take; [apply _|]]; apply (Sorted_merge_sort ts_desc).
Qed.

(** [limit(n)] bounds their number when [n] is not negative. *)
Lemma sqa_query_length table key sta n :
  0 <= n -> Z.of_nat (length (sqa_query table key sta n)) <= n.
Proof.
  intros Hn. unfold sqa_query. rewrite sql_limit_nonneg by done.
  rewrite length_take. lia.
Qed.

(** After the limit of the query, the trailing slice has nothing left
    to drop. *)
Lemma recent_chat_messages_reverse cfg sta table key :
  0 <= AI_CHAT_CONTEXT_MAX_LENGTH cfg ->
  recent_chat_messages cfg sta table key =
  reverse (sqa_query table key sta (AI_CHAT_CONTEXT_MAX_LENGTH cfg)).
Proof.
  intros Hn. unfold recent_chat_messages.
  apply slice_from_neg_short. rewrite length_reverse.
  by apply sqa_query_length.
Qed.

End ContextWindowFacts.

(** C2, the claim as stated fails: with [time.time() = 1000.5] and a
    look-back of 600 seconds the float difference is 400.5 and the
    cut-off is [int(400.5) = 400], so a turn stamped 400 is in the
    context window although it is older than [now - look-back = 400.5]. *)
Lemma context_window_older_than_lookback :
  let cfg := Examples.cfg false 3 2 in
  let now := Examples.now0 in
  let m := Examples.turn "group_1" 400 "a" in
  (Py.float_value now == 2001 # 2)%Q
  /\ (exists d, Py.float_sub_int now (AI_CHAT_CONTEXT_EXPIRE_SECONDS cfg) = inr d
                /\ (Py.float_value d == 801 # 2)%Q)
  /\ sta_timestamp cfg now = inr 400
  /\ recent_chat_messages cfg 400 [m] "group_1" = [m]
  /\ (inject_Z (send_timestamp m)
        < Py.float_value now - inject_Z (AI_CHAT_CONTEXT_EXPIRE_SECONDS cfg))%Q.
Proof.
  split; [reflexivity|]. split; [eexists; split; reflexivity|].
  split; [reflexivity|]. split; reflexivity.
Qed.

(** C2 (amended): for every channel [key] and every non-negative
    configured maximum, when line 81 gives the cut-off [sta], the
    context window holds at most the maximum number of turns, all of
    them turns of the channel whose timestamp is at least [sta].  The
    cut-off is [int(d)], where [d] is the float that [time.time() -
    look-back] evaluates to (the look-back converted to a float, the
    difference rounded to a float) and [int] truncates toward zero, so
    the timestamps are more than [d - 1].  The turns are in ascending
    order of timestamp; the window is computed by limiting the
    descending query, reversing it and slicing the last maximum turns
    again, and that second limit drops nothing. *)
Theorem context_window_bounds cfg now table key sta :
  0 <= AI_CHAT_CONTEXT_MAX_LENGTH cfg ->
  sta_timestamp cfg now = inr sta ->
  let n := AI_CHAT_CONTEXT_MAX_LENGTH cfg in
  let window := recent_chat_messages cfg sta table key in
  Z.of_nat (length window) <= n
  /\ (exists d,
        Py.float_sub_int now (AI_CHAT_CONTEXT_EXPIRE_SECONDS cfg) = inr d
        /\ Py.int_of_float d = inr sta
        /\ Forall (fun m =>
             m ∈ table /\ db_chat_key m = key /\ sta <= send_timestamp m
             /\ (Py.float_value d - 1 < inject_Z (send_timestamp m))%Q) window)
  /\ Sorted ts_asc window
  /\ window = Py.slice_from (- n)
       (reverse (sql_limit n (merge_sort ts_desc (filter (in_window key sta) table))))
  /\ window = reverse (sql_limit n (merge_sort ts_desc (filter (in_window key sta) table))).
Proof.
  intros Hn Hsta n window.
  assert (window = reverse (sqa_query table key sta n)) as Hw
    by (by apply recent_chat_messages_reverse).
  split; [|split; [|split; [|split]]].
  - rewrite Hw, length_reverse. by apply sqa_query_length.
  - destruct (sta_timestamp_inr cfg now sta Hsta) as (d & Hd & Hint).
    exists d. split; [done|]. split; [done|].
    apply Forall_forall. intros m Hm. rewrite Hw in Hm.
    apply elem_of_reverse, sqa_query_rows in Hm as (Ht & Hk & Hs).
    repeat split; try done.
    eapply Qlt_le_trans; [apply (int_of_float_near d sta Hint)|].
    rewrite <- Zle_Qle. exact Hs.
  - rewrite Hw.
    apply (Sorted_reverse ts_desc), sqa_query_sorted.
  - reflexivity.
  - exact Hw.
Qed.

Lemma context_window_bounds_witness :
  Z.of_nat (length (recent_chat_messages (Examples.cfg false 3 2) 400
                      Examples.table0 "group_1")) <= 2.
Proof.
  apply (context_window_bounds (Examples.cfg false 3 2) Examples.now0 Examples.table0
           "group_1" 400).
  - simpl. lia.
  - reflexivity.
Defined.

(** With a negative maximum the query is not limited and the trailing
    slice [[-n:]] drops from the front: a maximum of -1 over three turns
    of the channel leaves the two newest. *)
Example negative_maximum_window :
  recent_chat_messages
    {| DEBUG_IN_CHAT := false; AI_CHAT_PRESET_SETTING := "";
       AI_CHAT_CONTEXT_EXPIRE_SECONDS := 600;
       AI_CHAT_CONTEXT_MAX_LENGTH := -1; AI_CHAT_LLM_API_MAX_RETRIES := 3;
       AI_SCRIPT_MAX_RETRY_TIMES := 2 |} 400 Examples.table0 "group_1"
  = [Examples.turn "group_1" 650 "b"; Examples.turn "group_1" 700 "c"].
Proof. vm_compute. reflexivity. Qed.

(** The cut-off is the rounded difference, not the exact one: with a
    look-back of [2^53 + 3] seconds the conversion and the subtraction
    both round, and line 81 gives [-9007199254739996] where the exact
    difference truncates to [-9007199254739994]. *)
Example cutoff_is_rounded :
  sta_timestamp
    {| DEBUG_IN_CHAT := false; AI_CHAT_PRESET_SETTING := "";
       AI_CHAT_CONTEXT_EXPIRE_SECONDS := 2 ^ 53 + 3;
       AI_CHAT_CONTEXT_MAX_LENGTH := 2; AI_CHAT_LLM_API_MAX_RETRIES := 3;
       AI_SCRIPT_MAX_RETRY_TIMES := 2 |} Examples.now0
  = inr (-9007199254739996).
Proof. vm_compute. reflexivity. Qed.

(** A look-back that no float is near makes line 81 raise. *)
Example cutoff_overflows :
  sta_timestamp
    {| DEBUG_IN_CHAT := false; AI_CHAT_PRESET_SETTING := "";
       AI_CHAT_CONTEXT_EXPIRE_SECONDS := 2 ^ 1024;
       AI_CHAT_CONTEXT_MAX_LENGTH := 2; AI_CHAT_LLM_API_MAX_RETRIES := 3;
       AI_SCRIPT_MAX_RETRY_TIMES := 2 |} Examples.now0
  = inl "OverflowError: int too large to convert to float".
Proof. vm_compute. reflexivity. Qed.

(** ** Computations *)

Lemma bind_run {A B} (m : M A) (f : A -> M B) w :
  (m ≫= f) w =
  match m w with
  | (Return a, w') => f a w'
  | (Raise e, w') => (Raise e, w')
  | (OutOfFuel, w') => (OutOfFuel, w')
  end.
Proof. reflexivity. Qed.

(** Unfolds the calls to the collaborators down to the world they leave. *)
Ltac run :=
  unfold debug_message, send_message, send_agent_message, logger_error,
    run_code, os_urandom, time_now, strftime, save, read_list, list_append,
    new_list, emit, get_trace, raise, out_of_fuel, mbind, mret, M_bind, M_ret;
  cbn beta iota zeta delta [fst snd heap trace].

Lemma safe_bind {A B} (m : M A) (f : A -> M B) :
  safe m -> (forall a, safe (f a)) -> safe (m ≫= f).
Proof.
  intros Hm Hf w. rewrite bind_run. specialize (Hm w).
  destruct (m w) as [[a|e|] w1]; simpl in *; [apply Hf|done..].
Qed.

Section Steps.
Context (R : relation World) `{!PreOrder R}.

Lemma steps_ret {A} (a : A) : steps R (mret a).
Proof. intros w. reflexivity. Qed.

Lemma steps_raise {A} e : steps R (@raise A e).
Proof. intros w. reflexivity. Qed.

Lemma steps_bind {A B} (m : M A) (f : A -> M B) :
  steps R m -> (forall a, steps R (f a)) -> steps R (m ≫= f).
Proof.
  intros Hm Hf w. rewrite bind_run. specialize (Hm w).
  destruct (m w) as [[a|e|] w1]; simpl in *; [|done..].
  etrans; [exact Hm|apply Hf].
Qed.

(** The parts of the loop that only emit quiet events and only write to
    the list at [l]. *)
Context (env : Env) (l : loc).
Hypothesis R_quiet : forall e, quiet e = true -> steps R (emit e).
Hypothesis R_append : forall m, steps R (list_append l m).

Lemma steps_debug_message key text : steps R (debug_message env key text).
Proof.
  unfold debug_message. destruct (DEBUG_IN_CHAT _); [|apply steps_ret].
  by apply R_quiet.
Qed.

Lemma steps_run_code code key : steps R (run_code env code key).
Proof.
  intros w. run. by apply (R_quiet (EvRunCode _ _ _)).
Qed.

Lemma steps_save prompt_file response_file : steps R (save env prompt_file response_file).
Proof.
  intros w. run.
  destruct (mr_save env _ _ _); by apply (R_quiet (EvSave _ _ _)).
Qed.

Lemma steps_strftime : steps R (strftime env).
Proof. intros w. run. by apply (R_quiet (EvStrftime _)). Qed.

Lemma steps_persist : steps R (persist env).
Proof.
  unfold persist.
  apply steps_bind; [apply steps_save|intros _].
  apply steps_bind; [apply steps_strftime|intros stamp1].
  apply steps_bind; [apply steps_strftime|intros stamp2].
  apply steps_save.
Qed.

Lemma steps_agent_exec_result rec t c cm d :
  steps R (rec cm (Some l) (d + 1)) ->
  steps R (agent_exec_result env rec t c cm l d).
Proof.
  intros Hrec. unfold agent_exec_result. destruct t.
  - by apply R_quiet.
  - apply steps_bind; [apply steps_debug_message|intros _].
    apply steps_bind; [apply steps_run_code|intros result].
    destruct (Py.endswith _ _); [|apply steps_ret].
    apply steps_bind; [apply R_append|intros _].
    apply steps_bind; [destruct (_ <? _); apply R_append|intros _].
    destruct (_ <? _).
    + apply steps_bind; [apply steps_debug_message|intros _]. exact Hrec.
    + by apply R_quiet.
Qed.

Lemma steps_exec_ret_list exec ret_list :
  (forall t c, steps R (exec t c)) -> steps R (exec_ret_list exec ret_list).
Proof.
  intros Hexec. induction ret_list as [|[t c] rest IH]; simpl.
  - apply steps_ret.
  - apply steps_bind; [apply Hexec|intros _; exact IH].
Qed.

Lemma steps_respond rec cm d omr :
  steps R (rec cm (Some l) (d + 1)) ->
  steps R (respond env rec cm l d omr).
Proof.
  intros Hrec. unfold respond. destruct omr as [mr|].
  - destruct (resolve env mr) as [e|ret_list].
    + apply steps_bind; [by apply R_quiet|intros _; apply steps_raise].
    + apply steps_bind; [apply steps_persist|intros _].
      apply steps_exec_ret_list. intros t c.
      by apply steps_agent_exec_result.
  - apply steps_bind; [by apply R_quiet|intros _; apply steps_raise].
Qed.

End Steps.

(** ** The steps of [agent_run] *)

Section StepFacts.
Context (env : Env).

(** Steps 1 to 4 always go through.  They draw four bytes, bind the
    list of addition messages, read the clock and the history, and
    build the prompt from the code, the window and the list. *)
Lemma prepare_spec cm a w :
  exists l0 p w1 now sta table,
    prepare env cm a w = (Return (l0, p), w1)
    /\ trace w1 =
         trace w ++ EvUrandom (map (entropy env (trace w)) (seq 0 4))
           :: debug_events env (chat_key cm) debug_thinking
           ++ [EvTime now;
               EvQuery (chat_key cm) sta
                 (AI_CHAT_CONTEXT_MAX_LENGTH (config env))
                 (sqa_query table (chat_key cm) sta
                    (AI_CHAT_CONTEXT_MAX_LENGTH (config env)))]
    /\ prompt_one_time_code p = Py.hex (map (entropy env (trace w)) (seq 0 4))
    /\ prompt_history p = recent_chat_messages (config env) sta table (chat_key cm)
    /\ prompt_addition p = default [] (heap w1 !! l0)
    /\ ((a = Some l0 /\ heap w1 = heap w /\ default [] (heap w !! l0) <> [])
        \/ (l0 = length (heap w) /\ heap w1 = heap w ++ [[]]
            /\ forall l, a = Some l -> default [] (heap w !! l) = []))
    /\ sta_timestamp (config env) now = inr sta.
Proof.
  unfold prepare, bind_addition, read_recent_chat_messages, debug_events.
  destruct a as [l|]; [destruct (default [] (heap w !! l)) as [|m ms] eqn:El|];
    destruct (DEBUG_IN_CHAT (config env)) eqn:Ed; run; rewrite ?El, ?Ed; run;
    match goal with
    | |- context [sta_timestamp (config env) (time_time env ?tr)] =>
        destruct (clock_in_range env tr) as [sta Hsta]; rewrite Hsta
    end; run;
    do 6 eexists; (split; [reflexivity|]); simpl;
    rewrite <- ?app_assoc; simpl;
    (split; [reflexivity|]); (split; [reflexivity|]);
    (split; [reflexivity|]); (split; [reflexivity|]);
    (split; [|rewrite <- ?app_assoc in Hsta; exact Hsta]).
  all: try (right; split; [reflexivity|]; split; [reflexivity|];
            intros l' Hl'; congruence).
  all: left; split; [reflexivity|]; split; [reflexivity|]; congruence.
Qed.

Lemma count_app kind tr1 tr2 :
  count kind (tr1 ++ tr2) = (count kind tr1 + count kind tr2)%nat.
Proof. unfold count. by rewrite List.filter_app, length_app. Qed.

Lemma count_cons kind e tr :
  count kind (e :: tr) = ((if kind e then 1 else 0) + count kind tr)%nat.
Proof. unfold count. simpl. by destruct (kind e). Qed.

(** The loop of step 5 returns, leaves the heap alone and adds only
    model calls with the prompt [p] and error logs, one log per failed
    call; when it ends without a response it has made all [n] calls. *)
Lemma model_loop_spec p n w :
  exists omr ext,
    model_loop env p n w = (Return omr, {| heap := heap w; trace := trace w ++ ext |})
    /\ Forall (fun e => (exists r, e = EvSceneRun p r) \/ is_error_log e = true) ext
    /\ (count is_model_call ext <= n)%nat
    /\ match omr with
       | None => count is_model_call ext = n /\ count is_error_log ext = n
       | Some mr =>
           count is_model_call ext = S (count is_error_log ext)
           /\ exists ext', ext = ext' ++ [EvSceneRun p (inr mr)]
                /\ scene_run env (trace w ++ ext') p = inr mr
       end.
Proof.
  revert w. induction n as [|n IH]; intros w; simpl.
  - exists None, []. run. rewrite app_nil_r. destruct w; simpl. by repeat split.
  - run. destruct (scene_run env (trace w) p) as [e|mr] eqn:Er.
    + destruct (IH {| heap := heap w;
                      trace := (trace w ++ [EvSceneRun p (inl e)])
                                 ++ [EvLogError ("LLM API error: " +:+ e)] |})
        as (omr & ext & Hrun & Hall & Hle & Homr).
      simpl in Hrun. run. rewrite Hrun.
      exists omr, (EvSceneRun p (inl e) :: EvLogError ("LLM API error: " +:+ e) :: ext).
      split; [by rewrite <- !app_assoc|].
      split; [constructor; [left; eauto|]; constructor; [by right|done]|].
      rewrite !count_cons. simpl. split; [lia|].
      destruct omr as [mr|].
      * destruct Homr as (Hc & ext' & -> & Htr). split; [lia|].
        exists (EvSceneRun p (inl e) :: EvLogError ("LLM API error: " +:+ e) :: ext').
        split; [done|]. simpl in Htr. by rewrite <- !app_assoc in Htr.
      * destruct Homr. split; lia.
    + exists (Some mr), [EvSceneRun p (inr mr)].
      split; [done|]. split; [constructor; [left; eauto|done]|].
      split; [rewrite count_cons; simpl; unfold count; simpl; lia|].
      split; [done|]. exists []. by rewrite app_nil_r.
Qed.

(** With a backend that fails at every call the loop makes all [n]
    calls and ends without a response. *)
Lemma model_loop_all_fail p n w :
  (forall tr, exists e, scene_run env tr p = inl e) ->
  exists ext,
    model_loop env p n w = (Return None, {| heap := heap w; trace := trace w ++ ext |})
    /\ Forall (fun e => (exists r, e = EvSceneRun p r) \/ is_error_log e = true) ext
    /\ count is_model_call ext = n /\ count is_error_log ext = n.
Proof.
  intros Hfail.
  destruct (model_loop_spec p n w) as (omr & ext & Hrun & Hall & _ & Homr).
  destruct omr as [mr|].
  - destruct Homr as (_ & ext' & _ & Htr).
    destruct (Hfail (trace w ++ ext')) as [e He]. congruence.
  - exists ext. tauto.
Qed.

End StepFacts.

(** ** The recursion *)

Section Recursion.
Context (env : Env).

(** [agent_exec_result] calls [agent_run] only below the maximum depth,
    on its own list and one level deeper. *)
Lemma agent_exec_result_ext rec1 rec2 t c cm l d w :
  (d < AI_SCRIPT_MAX_RETRY_TIMES (config env) ->
   forall w', rec1 cm (Some l) (d + 1) w' = rec2 cm (Some l) (d + 1) w') ->
  agent_exec_result env rec1 t c cm l d w = agent_exec_result env rec2 t c cm l d w.
Proof.
  intros Hrec. unfold agent_exec_result. destruct t; [done|].
  run. destruct (DEBUG_IN_CHAT (config env)); run;
    (destruct (Py.endswith _ _); [|done]);
    destruct (d <? AI_SCRIPT_MAX_RETRY_TIMES (config env) - 1); run;
    (destruct (d <? AI_SCRIPT_MAX_RETRY_TIMES (config env)) eqn:Ed; [|done]);
    apply Z.ltb_lt in Ed; by apply Hrec.
Qed.

Lemma exec_ret_list_ext exec1 exec2 ret_list w :
  (forall t c w', exec1 t c w' = exec2 t c w') ->
  exec_ret_list exec1 ret_list w = exec_ret_list exec2 ret_list w.
Proof.
  intros Hexec. revert w. induction ret_list as [|[t c] rest IH]; intros w; simpl; [done|].
  rewrite !bind_run, Hexec. destruct (exec2 t c w) as [[[]|e|] w1]; [apply IH|done..].
Qed.

Lemma agent_run_body_ext rec1 rec2 cm a d w :
  (d < AI_SCRIPT_MAX_RETRY_TIMES (config env) ->
   forall l w', rec1 cm (Some l) (d + 1) w' = rec2 cm (Some l) (d + 1) w') ->
  agent_run_body env rec1 cm a d w = agent_run_body env rec2 cm a d w.
Proof.
  intros Hrec. unfold agent_run_body. rewrite !bind_run.
  destruct (prepare env cm a w) as [[[l p]|e|] w1]; [|done..].
  rewrite !bind_run. destruct (model_loop env p _ w1) as [[omr|e|] w2]; [|done..].
  unfold respond. destruct omr as [mr|]; [|done].
  destruct (resolve env mr); [done|].
  rewrite !bind_run. destruct (persist env w2) as [[[]|e|] w3]; [|done..].
  apply exec_ret_list_ext. intros t c w'. apply agent_exec_result_ext. auto.
Qed.

(** [agent_run] is the function that calls itself: the fuel it starts
    with is what the nested invocations need. *)
Lemma agent_run_unfold cm a d w :
  agent_run env cm a d w = agent_run_body env (agent_run env) cm a d w.
Proof.
  unfold agent_run at 1. unfold fuel_for. simpl.
  apply agent_run_body_ext. intros Hd l w'. unfold agent_run, fuel_for.
  replace (Z.to_nat (AI_SCRIPT_MAX_RETRY_TIMES (config env) - d))
    with (S (Z.to_nat (AI_SCRIPT_MAX_RETRY_TIMES (config env) - (d + 1)))) by lia.
  done.
Qed.

Lemma safe_agent_exec_result rec t c cm l d :
  (d < AI_SCRIPT_MAX_RETRY_TIMES (config env) -> safe (rec cm (Some l) (d + 1))) ->
  safe (agent_exec_result env rec t c cm l d).
Proof.
  intros Hrec w. unfold agent_exec_result. destruct t; [done|].
  run. destruct (DEBUG_IN_CHAT (config env)); run;
    (destruct (Py.endswith _ _); [|done]);
    destruct (d <? AI_SCRIPT_MAX_RETRY_TIMES (config env) - 1); run;
    (destruct (d <? AI_SCRIPT_MAX_RETRY_TIMES (config env)) eqn:Ed; [|done]);
    apply Z.ltb_lt in Ed; by apply Hrec.
Qed.

Lemma safe_exec_ret_list exec ret_list :
  (forall t c, safe (exec t c)) -> safe (exec_ret_list exec ret_list).
Proof.
  intros Hexec. induction ret_list as [|[t c] rest IH]; simpl; [done|].
  apply safe_bind; [apply Hexec|intros _; exact IH].
Qed.

Lemma safe_persist : safe (persist env).
Proof.
  intros w. unfold persist. run.
  destruct (mr_save env _ _ _); [done|]. run.
  by destruct (mr_save env _ _ _).
Qed.

Lemma safe_agent_run_body rec cm a d :
  (d < AI_SCRIPT_MAX_RETRY_TIMES (config env) ->
   forall l, safe (rec cm (Some l) (d + 1))) ->
  safe (agent_run_body env rec cm a d).
Proof.
  intros Hrec w. unfold agent_run_body. rewrite bind_run.
  destruct (prepare_spec env cm a w) as (l0 & p & w1 & now & sta & table & -> & _).
  rewrite bind_run.
  destruct (model_loop_spec env p (Z.to_nat (AI_CHAT_LLM_API_MAX_RETRIES (config env))) w1)
    as (omr & ext & -> & _).
  unfold respond. destruct omr as [mr|]; [|done].
  destruct (resolve env mr); [done|].
  apply safe_bind; [apply safe_persist|intros _].
  apply safe_exec_ret_list. intros t c. apply safe_agent_exec_result. auto.
Qed.

(** [agent_run] never runs out of fuel: it returns or raises. *)
Lemma agent_run_safe cm a d : safe (agent_run env cm a d).
Proof.
  remember (Z.to_nat (AI_SCRIPT_MAX_RETRY_TIMES (config env) - d)) as k eqn:Hk.
  revert a d Hk. induction k as [|k IH]; intros a d Hk w;
    rewrite agent_run_unfold; apply safe_agent_run_body; intros Hd l.
  - lia.
  - apply IH. lia.
Qed.

End Recursion.

(** ** Invariants of the loop *)

Section Invariants.
Context (env : Env).

#[local] Instance grows_preorder : PreOrder grows.
Proof.
  split.
  - intros w. unfold grows. reflexivity.
  - intros w1 w2 w3. unfold grows. apply transitivity.
Qed.

#[local] Instance keeps_preorder l : PreOrder (keeps l).
Proof. split; unfold keeps; [intros w|intros w1 w2 w3]; auto. Qed.

#[local] Instance keeps_codes_fresh_preorder : PreOrder keeps_codes_fresh.
Proof. split; unfold keeps_codes_fresh; [intros w|intros w1 w2 w3]; auto. Qed.

(** The body in terms of its three steps. *)
Lemma agent_run_body_steps (R : relation World) `{!PreOrder R} rec cm a d w l0 p w1 omr w2 :
  prepare env cm a w = (Return (l0, p), w1) ->
  model_loop env p (Z.to_nat (AI_CHAT_LLM_API_MAX_RETRIES (config env))) w1 = (Return omr, w2) ->
  R w w2 ->
  steps R (respond env rec cm l0 d omr) ->
  R w (agent_run_body env rec cm a d w).2.
Proof.
  intros Hp Hm Hw Hr. unfold agent_run_body.
  rewrite bind_run, Hp. cbn beta iota. rewrite bind_run, Hm.
  etrans; [exact Hw|apply Hr].
Qed.

(** *** The trace only grows *)

Lemma agent_run_fuel_grows fuel cm a d : steps grows (agent_run_fuel env fuel cm a d).
Proof.
  revert cm a d. induction fuel as [|fuel IH]; intros cm a d w; simpl; [reflexivity|].
  destruct (prepare_spec env cm a w) as (l0 & p & w1 & now & sta & table & Hp & Htr & _).
  destruct (model_loop_spec env p (Z.to_nat (AI_CHAT_LLM_API_MAX_RETRIES (config env))) w1)
    as (omr & ext & Hm & _).
  eapply (agent_run_body_steps grows); [exact Hp|exact Hm| |].
  - unfold grows. simpl. rewrite Htr, <- app_assoc. apply prefix_app_r. reflexivity.
  - apply (steps_respond grows env l0); [| |apply IH].
    + intros e _ w'. unfold grows. simpl. by apply prefix_app_r.
    + intros m w'. unfold grows. simpl. reflexivity.
Qed.

Lemma agent_run_grows cm a d : steps grows (agent_run env cm a d).
Proof. apply agent_run_fuel_grows. Qed.

(** An invocation starts by drawing four bytes. *)
Lemma agent_run_starts cm a d w :
  exists rest,
    trace (agent_run env cm a d w).2 =
    trace w ++ EvUrandom (map (entropy env (trace w)) (seq 0 4)) :: rest.
Proof.
  rewrite agent_run_unfold.
  destruct (prepare_spec env cm a w) as (l0 & p & w1 & now & sta & table & Hp & Htr & _).
  destruct (model_loop_spec env p (Z.to_nat (AI_CHAT_LLM_API_MAX_RETRIES (config env))) w1)
    as (omr & ext & Hm & _).
  assert (steps grows (respond env (agent_run env) cm l0 d omr)) as Hr.
  { apply (steps_respond grows env l0); [| |apply agent_run_grows].
    - intros e _ w'. unfold grows. simpl. by apply prefix_app_r.
    - intros m w'. unfold grows. simpl. reflexivity. }
  unfold agent_run_body. rewrite bind_run, Hp. cbn beta iota. rewrite bind_run, Hm.
  destruct (Hr {| heap := heap w1; trace := trace w1 ++ ext |}) as [rest' Hrest].
  rewrite Hrest. simpl. rewrite Htr, <- !app_assoc. simpl. eauto.
Qed.

(** *** Lists of other callers are left alone *)

Lemma agent_run_fuel_keeps fuel cm a d l w :
  a <> Some l \/ heap w !! l = Some [] ->
  keeps l w (agent_run_fuel env fuel cm a d w).2.
Proof.
  revert cm a d w. induction fuel as [|fuel IH]; intros cm a d w Ha; simpl; [reflexivity|].
  intros ms Hms.
  destruct (prepare_spec env cm a w)
    as (l0 & p & w1 & now & sta & table & Hp & _ & _ & _ & _ & Hheap & _).
  destruct (model_loop_spec env p (Z.to_nat (AI_CHAT_LLM_API_MAX_RETRIES (config env))) w1)
    as (omr & ext & Hm & _).
  assert (l0 <> l /\ heap w1 !! l = Some ms) as [Hne Hw1].
  { destruct Hheap as [(-> & -> & Hl0)|(-> & -> & _)].
    - split; [|done]. intros ->. destruct Ha as [|Ha]; [done|].
      rewrite Ha in Hl0. done.
    - apply lookup_lt_Some in Hms as Hlt. split; [lia|].
      by apply lookup_app_l_Some. }
  eapply (agent_run_body_steps (keeps l)); [exact Hp|exact Hm| | |exact Hms].
  - intros ms' Hms'. simpl. congruence.
  - apply (steps_respond (keeps l) env l0).
    + intros e _ w' ms'. done.
    + intros m w' ms' Hms'. simpl. by rewrite list_lookup_alter_ne.
    + intros w'. apply IH. left. congruence.
Qed.

(** *** One-time codes *)

Lemma code_run_app s tr1 tr2 :
  code_run s (tr1 ++ tr2) =
  match code_run s tr1 with Some s' => code_run s' tr2 | None => None end.
Proof.
  revert s. induction tr1 as [|e tr1 IH]; intros s; simpl; [done|].
  destruct (code_step s e); [apply IH|done].
Qed.

Lemma code_step_quiet s e : quiet e = true -> code_step s e = Some s.
Proof. by destruct e. Qed.

Lemma code_run_debug_events s key text : code_run s (debug_events env key text) = Some s.
Proof. unfold debug_events. by destruct (DEBUG_IN_CHAT _). Qed.

(** The model calls of step 5 carry the code of the prompt. *)
Lemma code_run_model_loop s p ext :
  current_code s = Some (prompt_one_time_code p) ->
  code_unused s = false ->
  Forall (fun e => (exists r, e = EvSceneRun p r) \/ is_error_log e = true) ext ->
  code_run s ext = Some s.
Proof.
  intros Hc Hu. induction 1 as [|e ext He _ IH]; simpl; [done|].
  destruct He as [[r ->]|He].
  - simpl. rewrite Hc, Hu, bool_decide_eq_true_2 by done. exact IH.
  - destruct e; done.
Qed.

Lemma agent_run_fuel_codes fuel cm a d :
  steps keeps_codes_fresh (agent_run_fuel env fuel cm a d).
Proof.
  revert cm a d. induction fuel as [|fuel IH]; intros cm a d w; simpl; [reflexivity|].
  destruct (prepare_spec env cm a w)
    as (l0 & p & w1 & now & sta & table & Hp & Htr & Hcode & _).
  destruct (model_loop_spec env p (Z.to_nat (AI_CHAT_LLM_API_MAX_RETRIES (config env))) w1)
    as (omr & ext & Hm & Hall & _).
  eapply (agent_run_body_steps keeps_codes_fresh); [exact Hp|exact Hm| |].
  - intros [s Hs]. unfold codes_fresh. simpl. rewrite Htr.
    rewrite <- !app_assoc, code_run_app, Hs. simpl.
    rewrite !code_run_app, code_run_debug_events. simpl.
    erewrite code_run_model_loop; [done|by rewrite Hcode|done|exact Hall].
  - apply (steps_respond keeps_codes_fresh env l0); [| |apply IH].
    + intros e He w' [s Hs]. unfold codes_fresh. simpl.
      rewrite code_run_app, Hs. simpl. by rewrite code_step_quiet.
    + intros m w'. unfold keeps_codes_fresh. done.
Qed.

(** In a trace that the monitor accepts every model call carries eight
    hexadecimal digits. *)
Lemma code_run_well_formed s tr s' :
  code_run s tr = Some s' ->
  (forall c, current_code s = Some c -> is_one_time_code c) ->
  forall p r, EvSceneRun p r ∈ tr -> is_one_time_code (prompt_one_time_code p).
Proof.
  revert s. induction tr as [|e tr IH]; intros s Hrun Hs p r Hin.
  - by apply elem_of_nil in Hin.
  - simpl in Hrun. destruct (code_step s e) as [s1|] eqn:Hstep; [|done].
    apply elem_of_cons in Hin as [<-|Hin].
    + simpl in Hstep. destruct (bool_decide _) eqn:Hc; [|done].
      apply bool_decide_eq_true in Hc. by apply Hs.
    + eapply (IH s1 Hrun); [|exact Hin].
      intros c Hc. destruct e; simpl in Hstep; simplify_eq; auto.
      * destruct (bool_decide (length bs = 4%nat)) eqn:Hlen; [|done].
        apply bool_decide_eq_true in Hlen. simplify_eq. simpl in Hc. simplify_eq.
        split; [rewrite hex_length; lia|apply hex_digits].
      * destruct (code_unused s); simplify_eq. auto.
      * destruct (_ && _); simplify_eq. auto.
Qed.

End Invariants.

(** ** Executing one resolved action *)

Section Actions.
Context (env : Env).

Lemma count_debug_events kind key text :
  kind (EvSendMessage key text) = false ->
  count kind (debug_events env key text) = 0%nat.
Proof. intros Hk. unfold debug_events. destruct (DEBUG_IN_CHAT _); [|done]. unfold count. simpl. by rewrite Hk. Qed.

Lemma new_events_eq w w' ext : trace w' = trace w ++ ext -> new_events w w' = ext.
Proof. intros Htr. unfold new_events. by rewrite Htr, drop_app_length. Qed.

Lemma alter_append_two (h : list (list PromptMessage)) l m1 m2 :
  alter (fun ms => ms ++ [m2]) l (alter (fun ms => ms ++ [m1]) l h) =
  alter (fun ms => ms ++ [m1; m2]) l h.
Proof.
  rewrite list_alter_alter_eq. apply list_alter_ext; [|done].
  intros ms _. simpl. by rewrite <- app_assoc.
Qed.

(** A failed script: the two entries are added, then the loop is
    entered again below the maximum depth, or the notice is sent. *)
Lemma agent_exec_result_failure rec c cm l d w :
  Py.endswith (sandbox_result env c cm w) (CODE_RUN_ERROR_FLAG env) = true ->
  agent_exec_result env rec SCRIPT c cm l d w =
  if d <? AI_SCRIPT_MAX_RETRY_TIMES (config env)
  then (debug_message env (chat_key cm)
          (debug_retrying env (err_msg_of env (sandbox_result env c cm w)) d);;
        rec cm (Some l) (d + 1)) (after_script_failure env c cm l d w)
  else send_message (chat_key cm) max_retries_notice (after_script_failure env c cm l d w).
Proof.
  unfold sandbox_result, after_script_failure, failure_reply, sandbox_result,
    err_msg_of, agent_exec_result, debug_events.
  intros Hfail. run.
  replace (d + 1 <? AI_SCRIPT_MAX_RETRY_TIMES (config env))
    with (d <? AI_SCRIPT_MAX_RETRY_TIMES (config env) - 1)
    by (apply eq_true_iff_eq; rewrite !Z.ltb_lt; lia).
  destruct (DEBUG_IN_CHAT (config env)); run; rewrite ?app_nil_r in *;
    rewrite Hfail;
    destruct (d <? AI_SCRIPT_MAX_RETRY_TIMES (config env) - 1); run;
    rewrite alter_append_two;
    destruct (d <? AI_SCRIPT_MAX_RETRY_TIMES (config env)); run;
    rewrite <- ?app_assoc; reflexivity.
Qed.

End Actions.

(** C8: executing a text action makes exactly one call to the channel,
    [send_agent_message] with the text of the action and [record=True];
    the sandbox is not called, nothing else happens. *)
Theorem text_action_sends_once env rec ret_content cm l d w :
  let r := agent_exec_result env rec TEXT ret_content cm l d w in
  r.1 = Return tt
  /\ new_events w r.2 = [EvSendAgentMessage (chat_key cm) ret_content (Some true)]
  /\ count is_sandbox_call (new_events w r.2) = 0%nat
  /\ heap r.2 = heap w.
Proof.
  simpl. rewrite (new_events_eq w _ [EvSendAgentMessage (chat_key cm) ret_content (Some true)])
    by reflexivity.
  by repeat split.
Qed.

(** C9: when the sandbox result of a script action does not end with the
    error marker, the action returns after the sandbox call: the list of
    addition messages is as before, [agent_run] is not called, and the
    only message that can have gone to the channel is the debug notice
    that precedes the sandbox call. *)
Theorem script_success_is_silent env rec code cm l d w :
  Py.endswith (sandbox_result env code cm w) (CODE_RUN_ERROR_FLAG env) = false ->
  agent_exec_result env rec SCRIPT code cm l d w =
  (Return tt,
   {| heap := heap w;
      trace := trace w ++ debug_events env (chat_key cm) debug_running
                 ++ [EvRunCode code (chat_key cm) (sandbox_result env code cm w)] |})
  /\ count is_invocation (new_events w (agent_exec_result env rec SCRIPT code cm l d w).2) = 0%nat
  /\ count is_agent_message (new_events w (agent_exec_result env rec SCRIPT code cm l d w).2) = 0%nat
  /\ (DEBUG_IN_CHAT (config env) = false ->
      new_events w (agent_exec_result env rec SCRIPT code cm l d w).2 =
      [EvRunCode code (chat_key cm) (sandbox_result env code cm w)]).
Proof.
  intros Hok.
  assert (agent_exec_result env rec SCRIPT code cm l d w =
    (Return tt,
     {| heap := heap w;
        trace := trace w ++ debug_events env (chat_key cm) debug_running
                   ++ [EvRunCode code (chat_key cm) (sandbox_result env code cm w)] |})) as Hrun.
  { revert Hok. unfold agent_exec_result, sandbox_result, debug_events. run.
    destruct (DEBUG_IN_CHAT (config env)); run; rewrite ?app_nil_r;
      intros ->; by rewrite <- ?app_assoc. }
  rewrite Hrun. split; [done|].
  erewrite new_events_eq by (simpl; reflexivity).
  rewrite !count_app, !count_debug_events by done.
  repeat split. intros Hd. unfold debug_events. by rewrite Hd.
Qed.

Lemma script_success_is_silent_witness :
  (agent_exec_result Examples.env_text (agent_run Examples.env_text) SCRIPT "print(1)"
     Examples.cm0 0%nat 0 Examples.w0).1 = Return tt.
Proof.
  rewrite (proj1 (script_success_is_silent Examples.env_text (agent_run Examples.env_text)
                    "print(1)" Examples.cm0 0%nat 0 Examples.w0 eq_refl)).
  reflexivity.
Defined.

(** C3: when the sandbox result of a script action ends with the error
    marker, exactly two entries are added to the list of addition
    messages before anything else is done about the failure: first the
    assistant-authored entry with the failing script, then a
    user-authored entry with the error text (the result without the
    marker), which asks to retry in the agreed format when
    [retry_depth + 1] is below the configured maximum and to give up and
    explain otherwise. *)
Theorem script_failure_appends_two env rec code cm l d w ms :
  heap w !! l = Some ms ->
  Py.endswith (sandbox_result env code cm w) (CODE_RUN_ERROR_FLAG env) = true ->
  let err_msg := err_msg_of env (sandbox_result env code cm w) in
  let reply :=
    if d + 1 <? AI_SCRIPT_MAX_RETRY_TIMES (config env)
    then UserMessage ("Code run error: " +:+ Py.str_or err_msg "No error message" +:+ Py.nl
           +:+ "Please maintain agreed reply format and try again.")
    else UserMessage ("Code run error: " +:+ Py.str_or err_msg "No error message" +:+ Py.nl
           +:+ "The number of retries has reached the limit, you should give up retries and explain the problem you are experiencing.") in
  let w1 := after_script_failure env code cm l d w in
  heap w1 = <[l := ms ++ [AiMessage ("script:>" +:+ Py.nl +:+ code); reply]]> (heap w)
  /\ heap w1 !! l = Some (ms ++ [AiMessage ("script:>" +:+ Py.nl +:+ code); reply])
  /\ agent_exec_result env rec SCRIPT code cm l d w =
     (if d <? AI_SCRIPT_MAX_RETRY_TIMES (config env)
      then (debug_message env (chat_key cm) (debug_retrying env err_msg d);;
            rec cm (Some l) (d + 1)) w1
      else send_message (chat_key cm) max_retries_notice w1)
  /\ (AI_SCRIPT_MAX_RETRY_TIMES (config env) <= d ->
      heap (agent_exec_result env rec SCRIPT code cm l d w).2 !! l =
      Some (ms ++ [AiMessage ("script:>" +:+ Py.nl +:+ code); reply]))
  /\ (CODE_RUN_ERROR_FLAG env <> "" ->
      sandbox_result env code cm w = err_msg +:+ CODE_RUN_ERROR_FLAG env).
Proof.
  intros Hl Hfail err_msg reply w1.
  assert (heap w1 = <[l := ms ++ [AiMessage ("script:>" +:+ Py.nl +:+ code); reply]]> (heap w))
    as Hheap.
  { unfold w1, after_script_failure. simpl. rewrite list_insert_alter.
    apply list_alter_ext; [|done]. intros ms' Hms'.
    assert (Some ms' = Some ms) as [= ->] by (rewrite <- Hms'; exact Hl).
    reflexivity. }
  assert (heap w1 !! l = Some (ms ++ [AiMessage ("script:>" +:+ Py.nl +:+ code); reply]))
    as Hlook.
  { rewrite Hheap. apply list_lookup_insert_eq. by eapply lookup_lt_Some. }
  split; [done|]. split; [done|]. split; [by apply agent_exec_result_failure|].
  split.
  - intros Hmax. rewrite agent_exec_result_failure by done.
    apply Z.ltb_ge in Hmax. rewrite Hmax. exact Hlook.
  - intros Hflag. by apply endswith_slice.
Qed.

Lemma script_failure_appends_two_witness :
  heap (after_script_failure Examples.env_script_fails "boom()" Examples.cm0 0%nat 0
          {| heap := [[]]; trace := [] |}) !! 0%nat =
  Some [AiMessage ("script:>" +:+ Py.nl +:+ "boom()");
        UserMessage ("Code run error: NameError: boom" +:+ Py.nl
          +:+ "The number of retries has reached the limit, you should give up retries and explain the problem you are experiencing.")].
Proof.
  apply (script_failure_appends_two Examples.env_script_fails
           (agent_run Examples.env_script_fails) "boom()" Examples.cm0 0%nat 0
           {| heap := [[]]; trace := [] |} []); reflexivity.
Defined.

(** C1, the claim as stated fails: with a maximum of 1 and a script that
    fails at depth 0, that is at depth = maximum - 1, the action enters
    [agent_run] again (one more draw of a one-time code, one more model
    call). *)
Lemma retry_at_last_depth :
  let env := Examples.env_script_fails in
  let w := {| heap := [[]]; trace := [] |} in
  let r := agent_exec_result env (agent_run env) SCRIPT "boom()" Examples.cm0 0%nat 0 w in
  Py.endswith (sandbox_result env "boom()" Examples.cm0 w) (CODE_RUN_ERROR_FLAG env) = true
  /\ 0 = AI_SCRIPT_MAX_RETRY_TIMES (config env) - 1
  /\ count is_invocation (new_events w r.2) = 1%nat
  /\ count is_model_call (new_events w r.2) = 1%nat.
Proof. vm_compute. repeat split. Qed.

(** C1 (amended): for a script action that failed, [agent_run] is entered
    again, with [retry_depth + 1] and the list that now holds the two new
    entries, if and only if [retry_depth] is below the configured
    maximum, so also at depth = maximum - 1; at the maximum depth or
    beyond, the action instead sends the notice that the maximum number
    of retries is reached, once, and returns. *)
Theorem retry_iff_below_max env code cm l d w :
  Py.endswith (sandbox_result env code cm w) (CODE_RUN_ERROR_FLAG env) = true ->
  let r := agent_exec_result env (agent_run env) SCRIPT code cm l d w in
  let w1 := after_script_failure env code cm l d w in
  let err_msg := err_msg_of env (sandbox_result env code cm w) in
  ((0 < count is_invocation (new_events w r.2))%nat
     <-> d < AI_SCRIPT_MAX_RETRY_TIMES (config env))
  /\ (d < AI_SCRIPT_MAX_RETRY_TIMES (config env) ->
      r = agent_run env cm (Some l) (d + 1)
            {| heap := heap w1;
               trace := trace w1
                 ++ debug_events env (chat_key cm) (debug_retrying env err_msg d) |})
  /\ (AI_SCRIPT_MAX_RETRY_TIMES (config env) <= d ->
      r = (Return tt,
           {| heap := heap w1;
              trace := trace w1 ++ [EvSendMessage (chat_key cm) max_retries_notice] |})).
Proof.
  intros Hfail r w1 err_msg.
  assert (d < AI_SCRIPT_MAX_RETRY_TIMES (config env) ->
      r = agent_run env cm (Some l) (d + 1)
            {| heap := heap w1;
               trace := trace w1
                 ++ debug_events env (chat_key cm) (debug_retrying env err_msg d) |}) as Hretry.
  { intros Hd. unfold r. rewrite agent_exec_result_failure by done.
    apply Z.ltb_lt in Hd. rewrite Hd. fold w1 err_msg.
    unfold debug_message, debug_events.
    destruct (DEBUG_IN_CHAT (config env)); run; [done|].
    rewrite app_nil_r. by destruct w1. }
  assert (AI_SCRIPT_MAX_RETRY_TIMES (config env) <= d ->
      r = (Return tt,
           {| heap := heap w1;
              trace := trace w1 ++ [EvSendMessage (chat_key cm) max_retries_notice] |})) as Hstop.
  { intros Hd. unfold r. rewrite agent_exec_result_failure by done.
    apply Z.ltb_ge in Hd. by rewrite Hd. }
  split; [|done].
  destruct (Z.lt_ge_cases d (AI_SCRIPT_MAX_RETRY_TIMES (config env))) as [Hd|Hd].
  - split; [done|intros _]. rewrite (Hretry Hd).
    destruct (agent_run_starts env cm (Some l) (d + 1)
                {| heap := heap w1;
                   trace := trace w1
                     ++ debug_events env (chat_key cm) (debug_retrying env err_msg d) |})
      as [rest Hrest].
    erewrite new_events_eq
      by (rewrite Hrest; unfold w1, after_script_failure; simpl;
          rewrite <- !app_assoc; reflexivity).
    repeat rewrite ?count_app, ?count_cons. simpl. lia.
  - split; [|lia]. rewrite (Hstop Hd).
    erewrite new_events_eq
      by (unfold w1, after_script_failure; simpl; rewrite <- !app_assoc; reflexivity).
    rewrite !count_app, count_debug_events by done. unfold count. simpl. lia.
Qed.

Lemma retry_iff_below_max_witness :
  let env := Examples.env_script_fails in
  let w := {| heap := [[]]; trace := [] |} in
  (0 < count is_invocation
         (new_events w (agent_exec_result env (agent_run env) SCRIPT "boom()"
                          Examples.cm0 0%nat 0 w).2))%nat
  <-> 0 < AI_SCRIPT_MAX_RETRY_TIMES (config env).
Proof.
  apply (retry_iff_below_max Examples.env_script_fails "boom()" Examples.cm0 0%nat 0
           {| heap := [[]]; trace := [] |}).
  reflexivity.
Defined.

(** ** One invocation *)

Section Invocation.
Context (env : Env).

(** An invocation is what [respond] does after steps 1 to 5. *)
Lemma agent_run_respond cm a d w l0 p w1 omr w2 :
  prepare env cm a w = (Return (l0, p), w1) ->
  model_loop env p (Z.to_nat (AI_CHAT_LLM_API_MAX_RETRIES (config env))) w1 = (Return omr, w2) ->
  agent_run env cm a d w = respond env (agent_run env) cm l0 d omr w2.
Proof.
  intros Hp Hm. rewrite agent_run_unfold. unfold agent_run_body.
  rewrite bind_run, Hp. cbn beta iota. by rewrite bind_run, Hm.
Qed.

(** The events of the model loop are of no other kind. *)
Lemma filter_attempts kind p ext :
  (forall r, kind (EvSceneRun p r) = false) ->
  (forall text, kind (EvLogError text) = false) ->
  Forall (fun e => (exists r, e = EvSceneRun p r) \/ is_error_log e = true) ext ->
  List.filter kind ext = [].
Proof.
  intros Hrun Hlog. induction 1 as [|e ext He _ IH]; simpl; [done|].
  destruct He as [[r ->]|He].
  - by rewrite Hrun.
  - destruct e; try done. by rewrite Hlog.
Qed.

Lemma count_attempts kind p ext :
  (forall r, kind (EvSceneRun p r) = false) ->
  (forall text, kind (EvLogError text) = false) ->
  Forall (fun e => (exists r, e = EvSceneRun p r) \/ is_error_log e = true) ext ->
  count kind ext = 0%nat.
Proof. intros ? ? ?. unfold count. by erewrite filter_attempts. Qed.

Lemma filter_debug_events kind key text :
  kind (EvSendMessage key text) = false ->
  List.filter kind (debug_events env key text) = [].
Proof.
  intros Hk. unfold debug_events. destruct (DEBUG_IN_CHAT _); [|done].
  simpl. by rewrite Hk.
Qed.

(** What has happened when the loop of step 5 ends with a response:
    the draw, the history read, the failed calls with their logs, and
    last the call that succeeded. *)
Lemma model_answer_events cm a w l0 p w1 mr w2 :
  prepare env cm a w = (Return (l0, p), w1) ->
  model_loop env p (Z.to_nat (AI_CHAT_LLM_API_MAX_RETRIES (config env))) w1
    = (Return (Some mr), w2) ->
  exists now sta table failed,
    new_events w w2 =
      (EvUrandom (map (entropy env (trace w)) (seq 0 4))
         :: debug_events env (chat_key cm) debug_thinking
         ++ [EvTime now;
             EvQuery (chat_key cm) sta
               (AI_CHAT_CONTEXT_MAX_LENGTH (config env))
               (sqa_query table (chat_key cm) sta
                  (AI_CHAT_CONTEXT_MAX_LENGTH (config env)))]
         ++ failed)
      ++ [EvSceneRun p (inr mr)]
    /\ trace w2 = trace w ++ new_events w w2
    /\ Forall (fun e => (exists r, e = EvSceneRun p r) \/ is_error_log e = true) failed.
Proof.
  intros Hp Hm.
  destruct (prepare_spec env cm a w) as (l0' & p' & w1' & now & sta & table & Hp' & Htr & _).
  rewrite Hp in Hp'. injection Hp' as <- <- <-.
  destruct (model_loop_spec env p (Z.to_nat (AI_CHAT_LLM_API_MAX_RETRIES (config env))) w1)
    as (omr & ext & Hm' & Hall & _ & Homr).
  rewrite Hm in Hm'. injection Hm' as <- ->.
  destruct Homr as (_ & failed & -> & _).
  apply Forall_app in Hall as [Hall _].
  exists now, sta, table, failed.
  set (ev := (EvUrandom (map (entropy env (trace w)) (seq 0 4))
         :: debug_events env (chat_key cm) debug_thinking
         ++ [EvTime now;
             EvQuery (chat_key cm) sta
               (AI_CHAT_CONTEXT_MAX_LENGTH (config env))
               (sqa_query table (chat_key cm) sta
                  (AI_CHAT_CONTEXT_MAX_LENGTH (config env)))]
         ++ failed)
      ++ [EvSceneRun p (inr mr)]).
  assert (trace w1 ++ failed ++ [EvSceneRun p (inr mr)] = trace w ++ ev) as Hev.
  { unfold ev. rewrite Htr. repeat first [rewrite <- app_assoc | progress simpl]. done. }
  rewrite (new_events_eq w _ ev) by exact Hev.
  by repeat split.
Qed.

End Invocation.

(** C4: when the model backend fails at every call, an invocation makes
    exactly the configured maximum number of calls (none when the maximum
    is not positive), logs an error after each of them, then sends one
    apology to the channel, the last thing it does, and raises
    [SceneRuntimeError]; no response is saved, no action is executed and
    [agent_run] is not entered again. *)
Theorem backend_down_raises_once env cm a d w :
  (forall tr p, exists e, scene_run env tr p = inl e) ->
  let r := agent_run env cm a d w in
  let ev := new_events w r.2 in
  r.1 = Raise (SceneRuntimeError llm_fatal)
  /\ count is_model_call ev = Z.to_nat (AI_CHAT_LLM_API_MAX_RETRIES (config env))
  /\ count is_error_log ev = Z.to_nat (AI_CHAT_LLM_API_MAX_RETRIES (config env))
  /\ List.filter is_agent_message ev = [EvSendAgentMessage (chat_key cm) apology None]
  /\ last ev = Some (EvSendAgentMessage (chat_key cm) apology None)
  /\ count is_sandbox_call ev = 0%nat
  /\ count is_save ev = 0%nat
  /\ count is_invocation ev = 1%nat.
Proof.
  intros Hdown r ev.
  destruct (prepare_spec env cm a w) as (l0 & p & w1 & now & sta & table & Hp & Htr & _).
  destruct (model_loop_all_fail env p
              (Z.to_nat (AI_CHAT_LLM_API_MAX_RETRIES (config env))) w1 (fun tr => Hdown tr p))
    as (ext & Hm & Hall & Hcalls & Hlogs).
  unfold ev, r. rewrite (agent_run_respond env cm a d w l0 p w1 None _ Hp Hm).
  unfold respond. run. split; [done|].
  erewrite new_events_eq by (rewrite Htr, <- !app_assoc; simpl; reflexivity).
  repeat split.
  - repeat rewrite ?count_app, ?count_cons.
    rewrite count_debug_events, Hcalls by done. unfold count. simpl. lia.
  - repeat rewrite ?count_app, ?count_cons.
    rewrite count_debug_events, Hlogs by done. unfold count. simpl. lia.
  - simpl. rewrite !List.filter_app, filter_debug_events by done. simpl.
    by erewrite filter_attempts.
  - rewrite app_comm_cons, !app_assoc. apply last_snoc.
  - repeat rewrite ?count_app, ?count_cons.
    rewrite count_debug_events, (count_attempts _ p ext) by done.
    unfold count. simpl. lia.
  - repeat rewrite ?count_app, ?count_cons.
    rewrite count_debug_events, (count_attempts _ p ext) by done.
    unfold count. simpl. lia.
  - repeat rewrite ?count_app, ?count_cons.
    rewrite count_debug_events, (count_attempts _ p ext) by done.
    unfold count. simpl. lia.
Qed.

Lemma backend_down_raises_once_witness :
  count is_model_call
    (new_events Examples.w0
       (agent_run Examples.env_backend_down Examples.cm0 None 0 Examples.w0).2) = 3%nat.
Proof.
  apply (backend_down_raises_once Examples.env_backend_down Examples.cm0 None 0 Examples.w0).
  intros tr p. exists "timeout". reflexivity.
Defined.

(** C5: when the resolver fails on the response of the model, the
    invocation logs the failure and raises [ResolveError] to its caller
    right after the model call that gave the response: the model is not
    called again, nothing is saved, no action is executed, [agent_run] is
    not entered again, and nothing goes to the channel but the debug
    notice of step 1. *)
Theorem resolve_failure_is_fatal env cm a d w l0 p w1 mr w2 e :
  prepare env cm a w = (Return (l0, p), w1) ->
  model_loop env p (Z.to_nat (AI_CHAT_LLM_API_MAX_RETRIES (config env))) w1
    = (Return (Some mr), w2) ->
  resolve env mr = inl e ->
  let r := agent_run env cm a d w in
  let ev := new_events w r.2 in
  r = (Raise (ResolveError (resolve_failed e)),
       {| heap := heap w2; trace := trace w2 ++ [EvLogError (resolve_failed e)] |})
  /\ (exists before,
        ev = before ++ [EvSceneRun p (inr mr); EvLogError (resolve_failed e)])
  /\ List.filter is_channel_message ev = debug_events env (chat_key cm) debug_thinking
  /\ count is_sandbox_call ev = 0%nat
  /\ count is_save ev = 0%nat
  /\ count is_invocation ev = 1%nat.
Proof.
  intros Hp Hm He r ev.
  assert (r = (Raise (ResolveError (resolve_failed e)),
       {| heap := heap w2; trace := trace w2 ++ [EvLogError (resolve_failed e)] |})) as Hr.
  { unfold r. rewrite (agent_run_respond env cm a d w l0 p w1 _ _ Hp Hm).
    unfold respond. by rewrite He. }
  split; [exact Hr|].
  destruct (model_answer_events env cm a w l0 p w1 mr w2 Hp Hm)
    as (now & sta & table & failed & Hev & Htr & Hall).
  assert (ev = new_events w w2 ++ [EvLogError (resolve_failed e)]) as ->.
  { unfold ev. rewrite Hr. apply new_events_eq. simpl. by rewrite Htr at 1; rewrite <- app_assoc. }
  rewrite Hev. split; [|repeat split].
  - rewrite <- app_assoc. eexists. reflexivity.
  - simpl. rewrite !List.filter_app. simpl.
    rewrite (filter_attempts _ p failed) by done.
    rewrite !app_nil_r. unfold debug_events. by destruct (DEBUG_IN_CHAT _).
  - repeat rewrite ?count_app, ?count_cons.
    rewrite count_debug_events, (count_attempts _ p failed) by done.
    unfold count. simpl. lia.
  - repeat rewrite ?count_app, ?count_cons.
    rewrite count_debug_events, (count_attempts _ p failed) by done.
    unfold count. simpl. lia.
  - repeat rewrite ?count_app, ?count_cons.
    rewrite count_debug_events, (count_attempts _ p failed) by done.
    unfold count. simpl. lia.
Qed.

Lemma resolve_failure_is_fatal_witness :
  (agent_run Examples.env_unresolved Examples.cm0 None 0 Examples.w0).1
  = Raise (ResolveError (resolve_failed "one time code mismatch")).
Proof.
  edestruct (resolve_failure_is_fatal Examples.env_unresolved Examples.cm0 None 0 Examples.w0)
    as [Hr _].
  - vm_compute. reflexivity.
  - vm_compute. reflexivity.
  - reflexivity.
  - rewrite Hr. reflexivity.
Defined.

(** C6, the claim as stated fails.  First run: the first model call
    fails and the second succeeds, and the response is saved once to each
    slot, so the failed attempt saved nothing.  Second run: the save
    raises, the exception leaves [agent_run] and the text action that was
    resolved is not executed. *)
Lemma persistence_not_per_attempt_nor_guarded :
  (let r := agent_run Examples.env_second_attempt Examples.cm0 None 0 Examples.w0 in
   r.1 = Return tt
   /\ count is_model_call (trace r.2) = 2%nat
   /\ count is_save (trace r.2) = 2%nat)
  /\ (let r := agent_run Examples.env_disk_full Examples.cm0 None 0 Examples.w0 in
      resolve Examples.env_disk_full {| response_text := "Hello" |} = inr [(TEXT, "Hello")]
      /\ r.1 = Raise (Exception "disk full")
      /\ count is_agent_message (trace r.2) = 0%nat).
Proof. vm_compute. repeat split. Qed.

(** C6 (amended): an invocation saves nothing while it calls the model,
    and nothing at all when the response does not resolve; once a call
    has succeeded and the response has resolved, it saves the prompt and
    response once to the fixed latest slot and then once to a slot named
    after the current time, before it executes any action; the saves are
    not guarded: when one of them raises, the exception leaves
    [agent_run] and no action is executed. *)
Theorem persistence_after_resolution env cm a d w l0 p w1 mr w2 :
  prepare env cm a w = (Return (l0, p), w1) ->
  model_loop env p (Z.to_nat (AI_CHAT_LLM_API_MAX_RETRIES (config env))) w1
    = (Return (Some mr), w2) ->
  let latest :=
    mr_save env (trace w2) ".temp/chat_prompt-latest.txt" ".temp/chat_response-latest.json" in
  let tr1 := trace w2
    ++ [EvSave ".temp/chat_prompt-latest.txt" ".temp/chat_response-latest.json" latest] in
  let stamp1 := time_strftime env tr1 in
  let tr2 := tr1 ++ [EvStrftime stamp1] in
  let stamp2 := time_strftime env tr2 in
  let tr3 := tr2 ++ [EvStrftime stamp2] in
  let prompt_file := ".temp/prompts/chat_prompt-" +:+ stamp1 +:+ ".txt" in
  let response_file := ".temp/prompts/chat_response-" +:+ stamp2 +:+ ".json" in
  let archive := mr_save env tr3 prompt_file response_file in
  let tr4 := tr3 ++ [EvSave prompt_file response_file archive] in
  count is_save (new_events w w2) = 0%nat
  /\ match resolve env mr with
     | inl e => count is_save (new_events w (agent_run env cm a d w).2) = 0%nat
     | inr ret_list =>
         agent_run env cm a d w =
         match latest, archive with
         | Some e, _ => (Raise (Exception e), {| heap := heap w2; trace := tr1 |})
         | None, Some e => (Raise (Exception e), {| heap := heap w2; trace := tr4 |})
         | None, None =>
             exec_ret_list
               (fun ret_type ret_content =>
                  agent_exec_result env (agent_run env) ret_type ret_content cm l0 d)
               ret_list {| heap := heap w2; trace := tr4 |}
         end
     end.
Proof.
  intros Hp Hm latest tr1 stamp1 tr2 stamp2 tr3 prompt_file response_file archive tr4.
  destruct (model_answer_events env cm a w l0 p w1 mr w2 Hp Hm)
    as (now & sta & table & failed & Hev & Htr & Hall).
  assert (count is_save (new_events w w2) = 0%nat) as Hnone.
  { rewrite Hev. repeat rewrite ?count_app, ?count_cons.
    rewrite count_debug_events, (count_attempts _ p failed) by done.
    unfold count. simpl. lia. }
  split; [exact Hnone|].
  rewrite (agent_run_respond env cm a d w l0 p w1 _ _ Hp Hm).
  unfold respond. destruct (resolve env mr) as [e|ret_list].
  - run. erewrite new_events_eq
      by (simpl; rewrite Htr at 1; rewrite <- app_assoc; reflexivity).
    rewrite count_app, Hnone. reflexivity.
  - unfold persist. run. fold latest tr1.
    destruct latest; [reflexivity|]. run.
    fold stamp1 tr2 stamp2 tr3 prompt_file response_file archive tr4.
    destruct archive; reflexivity.
Qed.

Lemma persistence_after_resolution_witness :
  (agent_run Examples.env_disk_full Examples.cm0 None 0 Examples.w0).1
  = Raise (Exception "disk full").
Proof.
  edestruct (persistence_after_resolution Examples.env_disk_full Examples.cm0 None 0
               Examples.w0) as [_ Hr].
  - vm_compute. reflexivity.
  - vm_compute. reflexivity.
  - exact (f_equal fst Hr).
Defined.

(** C7: every invocation, the nested ones included, starts by drawing
    four random bytes and uses their eight hexadecimal digits as its
    one-time code: the code is not an argument of [agent_run], the trace
    of an invocation begins with its own draw, and in the whole trace
    every history read comes after a draw that no earlier read has used
    and every model call carries the code of the latest draw. *)
Theorem one_time_code_per_invocation env cm a d w :
  codes_fresh (trace w) ->
  let w' := (agent_run env cm a d w).2 in
  let bs := map (entropy env (trace w)) (seq 0 4) in
  (exists rest, trace w' = trace w ++ EvUrandom bs :: rest)
  /\ length bs = 4%nat
  /\ is_one_time_code (Py.hex bs)
  /\ codes_fresh (trace w')
  /\ (forall p r, EvSceneRun p r ∈ trace w' -> is_one_time_code (prompt_one_time_code p)).
Proof.
  intros Hw w' bs.
  pose proof (agent_run_fuel_codes env (fuel_for env d) cm a d w Hw) as Hw'.
  change (codes_fresh (trace w')) in Hw'.
  split; [apply agent_run_starts|]. split; [reflexivity|].
  split; [split; [rewrite hex_length; reflexivity|apply hex_digits]|].
  split; [exact Hw'|].
  destruct Hw' as [s Hs]. eapply code_run_well_formed; [exact Hs|].
  intros c Hc. discriminate Hc.
Qed.

Lemma one_time_code_per_invocation_witness :
  codes_fresh (trace (agent_run Examples.env_script_fails Examples.cm0 None 0 Examples.w0).2).
Proof.
  refine (proj1 (proj2 (proj2 (proj2
    (one_time_code_per_invocation Examples.env_script_fails Examples.cm0 None 0
       Examples.w0 _))))).
  exists code_start. reflexivity.
Defined.

(** C10: calling [agent_run] with an empty list gives what calling it
    with [None] gives: in both cases the invocation works on a list it
    creates, and the list of the caller is still empty when the
    invocation and its retries are over. *)
Theorem empty_list_like_none env cm d w l :
  heap w !! l = Some [] ->
  agent_run env cm (Some l) d w = agent_run env cm None d w
  /\ bind_addition (Some l) w
     = (Return (length (heap w)), {| heap := heap w ++ [[]]; trace := trace w |})
  /\ bind_addition None w
     = (Return (length (heap w)), {| heap := heap w ++ [[]]; trace := trace w |})
  /\ heap (agent_run env cm (Some l) d w).2 !! l = Some [].
Proof.
  intros Hl. split; [|split; [|split]].
  - rewrite !agent_run_unfold. unfold agent_run_body, prepare, bind_addition.
    run. by rewrite Hl.
  - unfold bind_addition. run. by rewrite Hl.
  - reflexivity.
  - apply (agent_run_fuel_keeps env); [by right|done].
Qed.

Lemma empty_list_like_none_witness :
  heap (agent_run Examples.env_script_fails Examples.cm0 (Some 0%nat) 0
          {| heap := [[]]; trace := [] |}).2 !! 0%nat = Some [].
Proof.
  apply (empty_list_like_none Examples.env_script_fails Examples.cm0 0
           {| heap := [[]]; trace := [] |} 0%nat).
  reflexivity.
Defined.

(** ** The scenarios of the specification, run on example environments *)

(** Scenario A: a window of two turns and one text action: one message
    to the channel, recorded, and no sandbox call. *)
Example scenario_text_reply :
  let r := agent_run Examples.env_text Examples.cm0 None 0 Examples.w0 in
  r.1 = Return tt
  /\ map (fun p => map send_timestamp (prompt_history p)) (model_prompts (trace r.2))
     = [[650; 700]]
  /\ List.filter is_channel_message (trace r.2)
     = [EvSendAgentMessage "group_1" "Hello" (Some true)]
  /\ count is_sandbox_call (trace r.2) = 0%nat.
Proof. vm_compute. repeat split. Qed.

(** Scenarios B and C: a script that keeps failing, with a maximum of 1.
    The invocation at depth 0 enters the loop once more with its two new
    entries and under a new code; the failure at depth 1 ends the chain
    with one notice. *)
Example scenario_script_keeps_failing :
  let r := agent_run Examples.env_script_fails Examples.cm0 None 0 Examples.w0 in
  r.1 = Return tt
  /\ map prompt_one_time_code (model_prompts (trace r.2)) = ["0a4580bb"; "a3de1954"]
  /\ map (fun p => length (prompt_addition p)) (model_prompts (trace r.2)) = [0; 2]%nat
  /\ List.filter is_channel_message (trace r.2)
     = [EvSendMessage "group_1" max_retries_notice]
  /\ count is_sandbox_call (trace r.2) = 2%nat.
Proof. vm_compute. repeat split. Qed.

(** Scenario D: the response does not resolve: nothing goes to the
    channel and [ResolveError] is raised. *)
Example scenario_unresolved :
  let r := agent_run Examples.env_unresolved Examples.cm0 None 0 Examples.w0 in
  r.1 = Raise (ResolveError (resolve_failed "one time code mismatch"))
  /\ List.filter is_channel_message (trace r.2) = []
  /\ count is_model_call (trace r.2) = 1%nat.
Proof. vm_compute. repeat split. Qed.

(** * Further properties of the code *)

(** ** The context window keeps the newest turns *)

Section WindowSelection.

#[local] Instance window_desc_trans : Transitive ts_desc.
Proof. unfold ts_desc. intros a b c ? ?. lia. Qed.

#[local] Instance window_desc_total : Total ts_desc.
Proof. unfold ts_desc. intros a b. lia. Qed.

(** X1: a turn of the channel that is within the look-back but was left
    out of the context window is not newer than any turn in the window:
    the limit drops the oldest turns. *)
Theorem context_window_keeps_newest cfg sta table key m m' :
  0 <= AI_CHAT_CONTEXT_MAX_LENGTH cfg ->
  m ∈ table ->
  in_window key sta m ->
  m ∉ recent_chat_messages cfg sta table key ->
  m' ∈ recent_chat_messages cfg sta table key ->
  send_timestamp m <= send_timestamp m'.
Proof.
  intros Hn Hm Hwin Hout Hin.
  rewrite recent_chat_messages_reverse in Hout, Hin by done.
  rewrite elem_of_reverse in Hout, Hin. unfold sqa_query in Hout, Hin.
  rewrite sql_limit_nonneg in Hout, Hin by done.
  set (sorted := merge_sort ts_desc (filter (in_window key sta) table)) in *.
  set (n := Z.to_nat (AI_CHAT_CONTEXT_MAX_LENGTH cfg)) in *.
  assert (m ∈ sorted) as Hsorted.
  { unfold sorted. rewrite merge_sort_Permutation. by apply list_elem_of_filter. }
  rewrite <- (take_drop n sorted) in Hsorted.
  apply elem_of_app in Hsorted as [Htake|Hdrop]; [done|].
  assert (StronglySorted ts_desc (take n sorted ++ drop n sorted)) as Hs.
  { rewrite take_drop. apply (StronglySorted_merge_sort ts_desc). }
  exact (StronglySorted_app_1_elem_of _ _ _ _ _ Hs Hin Hdrop).
Qed.

Lemma context_window_keeps_newest_witness :
  send_timestamp (Examples.turn "group_1" 400 "a")
  <= send_timestamp (Examples.turn "group_1" 650 "b").
Proof.
  apply (context_window_keeps_newest (Examples.cfg false 3 2) 400 Examples.table0
           "group_1").
  - simpl. lia.
  - apply (bool_decide_unpack _). vm_compute. exact I.
  - apply (bool_decide_unpack _). vm_compute. exact I.
  - apply (bool_decide_unpack _). vm_compute. exact I.
  - apply (bool_decide_unpack _). vm_compute. exact I.
Defined.

(** X2: when no more turns of the channel are within the look-back than
    the window may hold, the window holds all of them, each as often as
    the table does; with no such turn it is empty. *)
Theorem context_window_complete cfg sta table key :
  (length (filter (in_window key sta) table)
     <= Z.to_nat (AI_CHAT_CONTEXT_MAX_LENGTH cfg))%nat ->
  recent_chat_messages cfg sta table key
    ≡ₚ filter (in_window key sta) table.
Proof.
  intros Hlen.
  assert (length (merge_sort ts_desc (filter (in_window key sta) table))
            <= Z.to_nat (AI_CHAT_CONTEXT_MAX_LENGTH cfg))%nat as Hsorted.
  { by rewrite merge_sort_Permutation. }
  unfold recent_chat_messages, sqa_query.
  destruct (Z.le_gt_cases 0 (AI_CHAT_CONTEXT_MAX_LENGTH cfg)) as [Hn|Hn].
  - rewrite sql_limit_nonneg by done. rewrite take_ge by done.
    rewrite slice_from_neg_short by (rewrite length_reverse; lia).
    by rewrite reverse_Permutation, merge_sort_Permutation.
  - pose proof (merge_sort_Permutation ts_desc (filter (in_window key sta) table)) as Hperm.
    assert (merge_sort ts_desc (filter (in_window key sta) table) = [])
      as Hnil by (apply nil_length_inv; lia).
    rewrite Hnil in Hperm |- *. rewrite <- Hperm.
    unfold sql_limit. destruct (AI_CHAT_CONTEXT_MAX_LENGTH cfg <? 0);
      unfold Py.slice_from; rewrite ?take_nil;
      change (reverse []) with (@nil DBChatMessage); by rewrite drop_nil.
Qed.

Lemma context_window_complete_witness :
  recent_chat_messages (Examples.cfg false 3 2) 400 Examples.table0 "group_2"
    ≡ₚ filter (in_window "group_2" 400) Examples.table0.
Proof.
  apply (context_window_complete (Examples.cfg false 3 2) 400 Examples.table0 "group_2").
  vm_compute. lia.
Defined.

End WindowSelection.

(** ** The loop of model calls *)

(** X3: the loop of model calls stops at the first call that succeeds:
    what it adds to the trace is the failed calls, each followed by its
    error log, and then the successful call if there is one; fewer than
    [n] calls failed when it returns a response, all [n] when it does
    not; the heap is as before. *)
Theorem model_loop_stops_at_first_success env p n w :
  exists omr errs,
    model_loop env p n w =
      (Return omr,
       {| heap := heap w;
          trace := trace w ++ failed_attempts p errs
                     ++ match omr with
                        | Some mr => [EvSceneRun p (inr mr)]
                        | None => []
                        end |})
    /\ match omr with
       | Some _ => (length errs < n)%nat
       | None => length errs = n
       end.
Proof.
  revert w. induction n as [|n IH]; intros w; simpl.
  - exists None, []. run. simpl. rewrite app_nil_r. by destruct w.
  - run. destruct (scene_run env (trace w) p) as [e|mr] eqn:Er.
    + destruct (IH {| heap := heap w;
                      trace := (trace w ++ [EvSceneRun p (inl e)])
                                 ++ [EvLogError ("LLM API error: " +:+ e)] |})
        as (omr & errs & Hrun & Hlen).
      simpl in Hrun. run. rewrite Hrun. exists omr, (e :: errs).
      split; [|destruct omr; simpl; lia].
      unfold failed_attempts. simpl. by rewrite <- !app_assoc.
    + exists (Some mr), []. split; [done|simpl; lia].
Qed.

(** X4: with a maximum number of model calls that is not positive, an
    invocation calls the model not at all, whatever the backend would
    answer: it sends the apology and raises [SceneRuntimeError]. *)
Theorem no_model_call_without_attempts env cm a d w :
  AI_CHAT_LLM_API_MAX_RETRIES (config env) <= 0 ->
  let r := agent_run env cm a d w in
  r.1 = Raise (SceneRuntimeError llm_fatal)
  /\ count is_model_call (new_events w r.2) = 0%nat
  /\ List.filter is_channel_message (new_events w r.2)
     = debug_events env (chat_key cm) debug_thinking
         ++ [EvSendAgentMessage (chat_key cm) apology None].
Proof.
  intros Hmax r.
  destruct (prepare_spec env cm a w) as (l0 & p & w1 & now & sta & table & Hp & Htr & _).
  assert (model_loop env p (Z.to_nat (AI_CHAT_LLM_API_MAX_RETRIES (config env))) w1
          = (Return None, w1)) as Hm.
  { replace (Z.to_nat (AI_CHAT_LLM_API_MAX_RETRIES (config env))) with 0%nat by lia.
    reflexivity. }
  unfold r. rewrite (agent_run_respond env cm a d w l0 p w1 None w1 Hp Hm).
  unfold respond. run. split; [reflexivity|].
  erewrite new_events_eq by (rewrite Htr, <- !app_assoc; simpl; reflexivity).
  split.
  - repeat rewrite ?count_app, ?count_cons.
    rewrite count_debug_events by done. unfold count. simpl. lia.
  - simpl. rewrite !List.filter_app. simpl.
    unfold debug_events. by destruct (DEBUG_IN_CHAT _).
Qed.

Lemma no_model_call_without_attempts_witness :
  count is_model_call
    (new_events Examples.w0
       (agent_run (Examples.env_of (Examples.cfg false 0 2)
                     (fun _ => inr {| response_text := "Hello" |})
                     (fun mr => inr [(TEXT, response_text mr)]) (fun _ => None) "")
          Examples.cm0 None 0 Examples.w0).2) = 0%nat.
Proof.
  refine (proj1 (proj2 (no_model_call_without_attempts
    (Examples.env_of (Examples.cfg false 0 2)
       (fun _ => inr {| response_text := "Hello" |})
       (fun mr => inr [(TEXT, response_text mr)]) (fun _ => None) "")
    Examples.cm0 None 0 Examples.w0 _))).
  simpl. lia.
Defined.

(** ** Responses made of text actions *)

(** X5: a list of text actions sends the texts to the channel of the
    message in the order of the list, each recorded, and does nothing
    else: no list is written, the sandbox and [agent_run] are not
    called. *)
Theorem text_actions_in_order env rec cm l d texts w :
  exec_ret_list
    (fun ret_type ret_content => agent_exec_result env rec ret_type ret_content cm l d)
    (map (fun text => (TEXT, text)) texts) w
  = (Return tt,
     {| heap := heap w;
        trace := trace w
          ++ map (fun text => EvSendAgentMessage (chat_key cm) text (Some true)) texts |}).
Proof.
  revert w. induction texts as [|text texts IH]; intros w; simpl.
  - rewrite app_nil_r. by destruct w.
  - rewrite bind_run. simpl. run. rewrite IH. simpl. by rewrite <- app_assoc.
Qed.

(** ** Relations that every invocation keeps *)

(** A script action whose result is not marked as an error. *)
Lemma agent_exec_result_success env rec c cm l d w :
  Py.endswith (sandbox_result env c cm w) (CODE_RUN_ERROR_FLAG env) = false ->
  agent_exec_result env rec SCRIPT c cm l d w =
  (Return tt,
   {| heap := heap w;
      trace := trace w ++ debug_events env (chat_key cm) debug_running
                 ++ [EvRunCode c (chat_key cm) (sandbox_result env c cm w)] |}).
Proof.
  unfold agent_exec_result, sandbox_result, debug_events. run.
  destruct (DEBUG_IN_CHAT (config env)); run; rewrite ?app_nil_r;
    intros ->; by rewrite <- ?app_assoc.
Qed.

(** The prompt that steps 1 to 4 build is about the channel of the
    message, with the configured preset. *)
Lemma prepare_prompt env cm a w l0 p w1 :
  prepare env cm a w = (Return (l0, p), w1) ->
  prompt_chat_key p = chat_key cm
  /\ prompt_chat_preset p = AI_CHAT_PRESET_SETTING (config env).
Proof.
  unfold prepare, bind_addition, read_recent_chat_messages.
  destruct a as [l|]; [destruct (default [] (heap w !! l)) as [|m ms] eqn:El|];
    destruct (DEBUG_IN_CHAT (config env)) eqn:Ed; run; rewrite ?El, ?Ed; run;
    match goal with
    | |- context [sta_timestamp (config env) (time_time env ?tr)] =>
        destruct (clock_in_range env tr) as [sta Hsta]; rewrite Hsta
    end; run;
    intros [= <- <- <-]; done.
Qed.

Section LoopSteps.
Context (env : Env) (cm : ChatMessage) (R : relation World) `{!PreOrder R}.

(** [R] holds across steps 1 to 5, across every event of the later steps
    and across the two entries that a failed script adds to a list. *)
Hypothesis R_steps_1_5 : forall a w l0 p w1 omr w2,
  prepare env cm a w = (Return (l0, p), w1) ->
  model_loop env p (Z.to_nat (AI_CHAT_LLM_API_MAX_RETRIES (config env))) w1
    = (Return omr, w2) ->
  R w w2.
Hypothesis R_action : forall e, action_event env cm e -> steps R (emit e).
Hypothesis R_pair : forall l s u w,
  R w {| heap := alter (fun ms => ms ++ [AiMessage s; UserMessage u]) l (heap w);
         trace := trace w |}.

Lemma loop_events evs w :
  Forall (action_event env cm) evs ->
  R w {| heap := heap w; trace := trace w ++ evs |}.
Proof.
  revert w. induction evs as [|e evs IH]; intros w Hall.
  - rewrite app_nil_r. destruct w. reflexivity.
  - apply Forall_cons in Hall as [He Hall].
    etrans; [exact (R_action e He w)|].
    specialize (IH {| heap := heap w; trace := trace w ++ [e] |} Hall).
    simpl in IH. by rewrite <- app_assoc in IH.
Qed.

Lemma loop_debug_events text :
  (text = debug_running \/ exists err_msg d, text = debug_retrying env err_msg d) ->
  Forall (action_event env cm) (debug_events env (chat_key cm) text).
Proof.
  intros Htext. unfold debug_events.
  destruct (DEBUG_IN_CHAT (config env)) eqn:Ed; constructor; [|constructor].
  simpl. auto.
Qed.

Lemma loop_debug_message text :
  (text = debug_running \/ exists err_msg d, text = debug_retrying env err_msg d) ->
  steps R (debug_message env (chat_key cm) text).
Proof.
  intros Htext w. unfold debug_message.
  destruct (DEBUG_IN_CHAT (config env)) eqn:Ed; [|reflexivity].
  apply (R_action (EvSendMessage _ _)). simpl. auto.
Qed.

Lemma loop_agent_exec_result rec t c l d :
  steps R (rec cm (Some l) (d + 1)) ->
  steps R (agent_exec_result env rec t c cm l d).
Proof.
  intros Hrec w. destruct t.
  - apply (R_action (EvSendAgentMessage _ _ _)). simpl. auto.
  - assert (Forall (action_event env cm)
              (debug_events env (chat_key cm) debug_running
                 ++ [EvRunCode c (chat_key cm) (sandbox_result env c cm w)])) as Hevs.
    { apply Forall_app. split; [apply loop_debug_events; auto|].
      constructor; [reflexivity|constructor]. }
    destruct (Py.endswith (sandbox_result env c cm w) (CODE_RUN_ERROR_FLAG env)) eqn:Hend.
    + rewrite agent_exec_result_failure by done.
      assert (R w (after_script_failure env c cm l d w)) as Hfail.
      { etrans; [exact (loop_events _ w Hevs)|].
        unfold after_script_failure, failure_reply, script_message,
          retry_message, give_up_message.
        destruct (d + 1 <? AI_SCRIPT_MAX_RETRY_TIMES (config env));
          apply (R_pair l _ _ {| heap := heap w; trace := _ |}). }
      destruct (d <? AI_SCRIPT_MAX_RETRY_TIMES (config env)).
      * etrans; [exact Hfail|].
        apply (steps_bind R
                 (debug_message env (chat_key cm)
                    (debug_retrying env (err_msg_of env (sandbox_result env c cm w)) d))
                 (fun _ => rec cm (Some l) (d + 1)));
          [apply loop_debug_message; eauto|intros _; exact Hrec].
      * etrans; [exact Hfail|].
        apply (R_action (EvSendMessage _ _)). simpl. auto.
    + rewrite agent_exec_result_success by done. by apply loop_events.
Qed.

Lemma loop_save prompt_file response_file :
  (forall r, action_event env cm (EvSave prompt_file response_file r)) ->
  steps R (save env prompt_file response_file).
Proof.
  intros Hfiles w. run.
  destruct (mr_save env (trace w) prompt_file response_file) eqn:Hr;
    exact (R_action _ (Hfiles _) w).
Qed.

Lemma loop_persist : steps R (persist env).
Proof.
  unfold persist.
  apply (steps_bind R); [apply loop_save; intros r; simpl; auto|intros _].
  apply (steps_bind R); [intros w; run; by apply (R_action (EvStrftime _))|intros stamp1].
  apply (steps_bind R); [intros w; run; by apply (R_action (EvStrftime _))|intros stamp2].
  apply loop_save. intros r. simpl. eauto.
Qed.

Lemma loop_respond rec l d omr :
  steps R (rec cm (Some l) (d + 1)) ->
  steps R (respond env rec cm l d omr).
Proof.
  intros Hrec. unfold respond. destruct omr as [mr|].
  - destruct (resolve env mr) as [e|ret_list].
    + apply (steps_bind R); [|intros _; apply (steps_raise R)].
      by apply (R_action (EvLogError _)).
    + apply (steps_bind R); [apply loop_persist|intros _].
      apply (steps_exec_ret_list R). intros t c. by apply loop_agent_exec_result.
  - apply (steps_bind R); [|intros _; apply (steps_raise R)].
    apply (R_action (EvSendAgentMessage _ _ _)). simpl. auto.
Qed.

(** Every invocation for [cm], with the invocations nested in it, keeps
    [R]. *)
Lemma loop_agent_run_fuel fuel a d : steps R (agent_run_fuel env fuel cm a d).
Proof.
  revert a d. induction fuel as [|fuel IH]; intros a d w; simpl; [reflexivity|].
  destruct (prepare_spec env cm a w) as (l0 & p & w1 & now & sta & table & Hp & _).
  destruct (model_loop_spec env p (Z.to_nat (AI_CHAT_LLM_API_MAX_RETRIES (config env))) w1)
    as (omr & ext & Hm & _).
  eapply (agent_run_body_steps env R); [exact Hp|exact Hm| |].
  - exact (R_steps_1_5 a w l0 p w1 omr _ Hp Hm).
  - apply loop_respond, IH.
Qed.

End LoopSteps.

(** ** What a run sends, and where *)

Lemma window_channel cfg sta table key m :
  m ∈ recent_chat_messages cfg sta table key -> db_chat_key m = key.
Proof.
  unfold recent_chat_messages, Py.slice_from. intros Hm.
  apply subseteq_drop, elem_of_reverse, sqa_query_rows in Hm.
  by destruct Hm as [_ [Hkey _]].
Qed.

Lemma window_length cfg sta table key :
  0 <= AI_CHAT_CONTEXT_MAX_LENGTH cfg ->
  (length (recent_chat_messages cfg sta table key)
     <= Z.to_nat (AI_CHAT_CONTEXT_MAX_LENGTH cfg))%nat.
Proof.
  intros Hn. unfold recent_chat_messages, Py.slice_from, sqa_query.
  rewrite sql_limit_nonneg by done.
  rewrite length_drop, length_reverse, length_take. lia.
Qed.

Section Shapes.
Context (env : Env) (cm : ChatMessage).

#[local] Instance shaped_preorder : PreOrder (shaped env cm).
Proof.
  split.
  - intros w. exists []. by rewrite app_nil_r.
  - intros w1 w2 w3 (ext1 & Htr1 & Hall1) (ext2 & Htr2 & Hall2).
    exists (ext1 ++ ext2). split; [by rewrite Htr2, Htr1, app_assoc|].
    by apply Forall_app.
Qed.

(** All the events of an invocation for [cm], nested invocations
    included, have one of the shapes of [loop_event]. *)
Lemma agent_run_shaped a d : steps (shaped env cm) (agent_run env cm a d).
Proof.
  apply (loop_agent_run_fuel env cm (shaped env cm)).
  - intros a' w l0 p w1 omr w2 Hp Hm.
    destruct (prepare_prompt env cm a' w l0 p w1 Hp) as [Hkey Hpreset].
    destruct (prepare_spec env cm a' w)
      as (l0' & p' & w1' & now & sta & table & Hp' & Htr & _ & Hhist & _).
    rewrite Hp in Hp'. injection Hp' as <- <- <-.
    destruct (model_loop_spec env p (Z.to_nat (AI_CHAT_LLM_API_MAX_RETRIES (config env))) w1)
      as (omr' & ext & Hm' & Hall & _).
    rewrite Hm in Hm'. injection Hm' as <- ->.
    eexists. split; [simpl; rewrite Htr, <- app_assoc; reflexivity|].
    simpl. constructor; [right; reflexivity|].
    rewrite <- app_assoc. apply Forall_app. split.
    { unfold debug_events. destruct (DEBUG_IN_CHAT (config env)) eqn:Ed; [|constructor].
      constructor; [|constructor]. right. simpl. auto. }
    constructor; [by right|]. constructor; [right; simpl; auto|].
    eapply Forall_impl; [exact Hall|]. intros e [[r ->]|He].
    + right. simpl. split; [done|]. split; [done|].
      rewrite Hhist. split; [|apply window_length].
      apply Forall_forall. intros m. apply window_channel.
    + left. by destruct e.
  - intros e He w. exists [e]. split; [done|]. constructor; [by left|constructor].
  - intros l s u w. exists []. split; [by rewrite app_nil_r|constructor].
Qed.

Lemma agent_run_events a d w :
  trace (agent_run env cm a d w).2 = trace w ++ new_events w (agent_run env cm a d w).2
  /\ Forall (loop_event env cm) (new_events w (agent_run env cm a d w).2).
Proof.
  destruct (agent_run_shaped a d w) as (ext & Htr & Hall).
  rewrite (new_events_eq w _ ext Htr). by split.
Qed.

End Shapes.

(** X6: whatever the model answers, a run for the message [cm], with
    all its retries, addresses the channel of [cm] only: every message it
    sends, every sandbox run and every history read carries the chat key
    of [cm]. *)
Theorem run_stays_on_its_channel env cm a d w :
  let ev := new_events w (agent_run env cm a d w).2 in
  (forall key text, EvSendMessage key text ∈ ev -> key = chat_key cm)
  /\ (forall key text record, EvSendAgentMessage key text record ∈ ev -> key = chat_key cm)
  /\ (forall code key result, EvRunCode code key result ∈ ev -> key = chat_key cm)
  /\ (forall key sta lim rows, EvQuery key sta lim rows ∈ ev -> key = chat_key cm).
Proof.
  intros ev. destruct (agent_run_events env cm a d w) as [_ Hall].
  fold ev in Hall. rewrite Forall_forall in Hall.
  repeat split; intros; match goal with H : _ ∈ ev |- _ => apply Hall in H as [H|H] end;
    simpl in *; tauto.
Qed.

Lemma run_stays_on_its_channel_witness :
  "group_1" = chat_key Examples.cm0.
Proof.
  refine (proj1 (run_stays_on_its_channel Examples.env_script_fails Examples.cm0 None 0
                   Examples.w0) "group_1" max_retries_notice _).
  apply (list_elem_of_lookup_2 _ 18%nat). vm_compute. reflexivity.
Defined.

(** X7: with debugging off, the only messages of a run to the channel
    are recorded replies, the apology for the model and the notice that
    the maximum number of retries is reached: no debug text is sent. *)
Theorem no_debug_text_when_debug_off env cm a d w :
  DEBUG_IN_CHAT (config env) = false ->
  Forall (fun e =>
            match e with
            | EvSendMessage _ text => text = max_retries_notice
            | EvSendAgentMessage _ text record =>
                record = Some true \/ (record = None /\ text = apology)
            | _ => True
            end)
    (new_events w (agent_run env cm a d w).2).
Proof.
  intros Hoff. destruct (agent_run_events env cm a d w) as [_ Hall].
  eapply Forall_impl; [exact Hall|].
  intros e [He|He]; destruct e; simpl in He; try done.
  - destruct He as [_ [->|[Hon _]]]; [done|congruence].
  - tauto.
  - destruct He as (_ & Hon & _). congruence.
Qed.

Lemma no_debug_text_when_debug_off_witness :
  Forall (fun e =>
            match e with
            | EvSendMessage _ text => text = max_retries_notice
            | EvSendAgentMessage _ text record =>
                record = Some true \/ (record = None /\ text = apology)
            | _ => True
            end)
    (new_events Examples.w0
       (agent_run Examples.env_script_fails Examples.cm0 None 0 Examples.w0).2).
Proof.
  apply (no_debug_text_when_debug_off Examples.env_script_fails Examples.cm0 None 0
           Examples.w0).
  reflexivity.
Defined.

(** X8: a run saves to no other files than the fixed pair
    [.temp/chat_prompt-latest.txt], [.temp/chat_response-latest.json]
    and pairs [.temp/prompts/chat_prompt-<stamp>.txt],
    [.temp/prompts/chat_response-<stamp>.json]. *)
Theorem run_saves_under_temp env cm a d w prompt_file response_file r :
  EvSave prompt_file response_file r ∈ new_events w (agent_run env cm a d w).2 ->
  (prompt_file = ".temp/chat_prompt-latest.txt"
   /\ response_file = ".temp/chat_response-latest.json")
  \/ (exists stamp1 stamp2,
        prompt_file = ".temp/prompts/chat_prompt-" +:+ stamp1 +:+ ".txt"
        /\ response_file = ".temp/prompts/chat_response-" +:+ stamp2 +:+ ".json").
Proof.
  intros Hin. destruct (agent_run_events env cm a d w) as [_ Hall].
  rewrite Forall_forall in Hall. apply Hall in Hin as [Hin|Hin]; [exact Hin|done].
Qed.

(** X9: every model call of a run, in the retries too, is made with a
    prompt about the channel of [cm] whose history holds only turns of
    that channel: turns of other channels never reach the model.  When
    the configured maximum is not negative, the history holds at most
    that many turns. *)
Theorem model_sees_own_channel_only env cm a d w p r :
  EvSceneRun p r ∈ new_events w (agent_run env cm a d w).2 ->
  prompt_chat_key p = chat_key cm
  /\ Forall (fun m => db_chat_key m = chat_key cm) (prompt_history p)
  /\ (0 <= AI_CHAT_CONTEXT_MAX_LENGTH (config env) ->
      (length (prompt_history p)
         <= Z.to_nat (AI_CHAT_CONTEXT_MAX_LENGTH (config env)))%nat).
Proof.
  intros Hin. destruct (agent_run_events env cm a d w) as [_ Hall].
  rewrite Forall_forall in Hall. apply Hall in Hin as [Hin|Hin]; [done|].
  simpl in Hin. tauto.
Qed.

Lemma run_saves_under_temp_witness :
  (".temp/chat_prompt-latest.txt" = ".temp/chat_prompt-latest.txt"
   /\ ".temp/chat_response-latest.json" = ".temp/chat_response-latest.json")
  \/ (exists stamp1 stamp2,
        ".temp/chat_prompt-latest.txt" = ".temp/prompts/chat_prompt-" +:+ stamp1 +:+ ".txt"
        /\ ".temp/chat_response-latest.json"
           = ".temp/prompts/chat_response-" +:+ stamp2 +:+ ".json").
Proof.
  apply (run_saves_under_temp Examples.env_text Examples.cm0 None 0 Examples.w0 _ _ None).
  apply (list_elem_of_lookup_2 _ 4%nat). vm_compute. reflexivity.
Defined.

Lemma model_sees_own_channel_only_witness :
  Forall (fun m => db_chat_key m = chat_key Examples.cm0)
    [Examples.turn "group_1" 650 "b"; Examples.turn "group_1" 700 "c"].
Proof.
  refine (proj1 (proj2 (model_sees_own_channel_only Examples.env_text Examples.cm0 None 0
    Examples.w0
    {| prompt_chat_preset := "You are a helpful cat.";
       prompt_one_time_code := "0a4580bb";
       prompt_chat_key := "group_1";
       prompt_history := [Examples.turn "group_1" 650 "b"; Examples.turn "group_1" 700 "c"];
       prompt_addition := [] |}
    (inr {| response_text := "Hello" |}) _))).
  apply (list_elem_of_lookup_2 _ 3%nat). vm_compute. reflexivity.
Defined.

(** ** The lists of addition messages *)

Section Lists.
Context (env : Env) (cm : ChatMessage).

Lemma pair_entries_app pairs1 pairs2 :
  pair_entries (pairs1 ++ pairs2) = pair_entries pairs1 ++ pair_entries pairs2.
Proof. unfold pair_entries. by rewrite map_app, concat_app. Qed.

#[local] Instance grows_in_pairs_preorder l : PreOrder (grows_in_pairs l).
Proof.
  split.
  - intros w ms Hms. exists []. by rewrite app_nil_r.
  - intros w1 w2 w3 H12 H23 ms Hms.
    destruct (H12 ms Hms) as [pairs1 H2]. destruct (H23 _ H2) as [pairs2 H3].
    exists (pairs1 ++ pairs2). by rewrite pair_entries_app, app_assoc.
Qed.

Lemma agent_run_grows_in_pairs l a d : steps (grows_in_pairs l) (agent_run env cm a d).
Proof.
  apply (loop_agent_run_fuel env cm (grows_in_pairs l)).
  - intros a' w l0 p w1 omr w2 Hp Hm ms Hms.
    destruct (prepare_spec env cm a' w)
      as (l0' & p' & w1' & now & sta & table & Hp' & _ & _ & _ & _ & Hheap & _).
    rewrite Hp in Hp'. injection Hp' as <- <- <-.
    destruct (model_loop_spec env p (Z.to_nat (AI_CHAT_LLM_API_MAX_RETRIES (config env))) w1)
      as (omr' & ext & Hm' & _).
    rewrite Hm in Hm'. injection Hm' as <- ->.
    exists []. rewrite app_nil_r. simpl.
    destruct Hheap as [(_ & -> & _)|(_ & -> & _)]; [done|by apply lookup_app_l_Some].
  - intros e _ w ms Hms. exists []. by rewrite app_nil_r.
  - intros l' s u w ms Hms. simpl. destruct (decide (l' = l)) as [->|Hne].
    + exists [(s, u)]. rewrite list_lookup_alter_eq.
      unfold loc in *. by rewrite Hms.
    + exists []. rewrite app_nil_r. by rewrite list_lookup_alter_ne.
Qed.

End Lists.

(** X10: a run only ever adds to the end of a list of addition messages,
    and what it adds are whole pairs, an assistant-authored entry
    followed by a user-authored one; a list other than the one it was
    called with is not changed at all. *)
Theorem addition_messages_grow_in_pairs env cm a d w l ms :
  heap w !! l = Some ms ->
  (exists pairs, heap (agent_run env cm a d w).2 !! l = Some (ms ++ pair_entries pairs))
  /\ (a <> Some l -> heap (agent_run env cm a d w).2 !! l = Some ms).
Proof.
  intros Hms. split.
  - exact (agent_run_grows_in_pairs env cm l a d w ms Hms).
  - intros Hne. apply (agent_run_fuel_keeps env); [by left|done].
Qed.

Lemma addition_messages_grow_in_pairs_witness :
  exists pairs,
    heap (agent_run Examples.env_script_fails Examples.cm0 (Some 0%nat) 0
            {| heap := [[UserMessage "earlier"]]; trace := [] |}).2 !! 0%nat
    = Some ([UserMessage "earlier"] ++ pair_entries pairs).
Proof.
  refine (proj1 (addition_messages_grow_in_pairs Examples.env_script_fails Examples.cm0
                   (Some 0%nat) 0 {| heap := [[UserMessage "earlier"]]; trace := [] |}
                   0%nat [UserMessage "earlier"] _)).
  reflexivity.
Defined.

(** ** How many calls a run makes *)

Section Budget.
Context (env : Env) (cm : ChatMessage).

#[local] Instance within_budget_preorder : PreOrder (within_budget env).
Proof.
  split.
  - intros w. unfold within_budget. lia.
  - intros w1 w2 w3. unfold within_budget.
    set (n := Z.to_nat (AI_CHAT_LLM_API_MAX_RETRIES (config env))).
    generalize (n * count is_invocation (trace w1))%nat
               (n * count is_invocation (trace w2))%nat
               (n * count is_invocation (trace w3))%nat.
    intros x1 x2 x3 [H1 H1'] [H2 H2']. lia.
Qed.

Lemma action_event_kind e :
  action_event env cm e ->
  is_model_call e = false /\ is_invocation e = false /\ is_query e = false.
Proof. by destruct e. Qed.

Lemma agent_run_within_budget a d : steps (within_budget env) (agent_run env cm a d).
Proof.
  apply (loop_agent_run_fuel env cm (within_budget env)).
  - intros a' w l0 p w1 omr w2 Hp Hm.
    destruct (prepare_spec env cm a' w) as (l0' & p' & w1' & now & sta & table & Hp' & Htr & _).
    rewrite Hp in Hp'. injection Hp' as <- <- <-.
    destruct (model_loop_spec env p (Z.to_nat (AI_CHAT_LLM_API_MAX_RETRIES (config env))) w1)
      as (omr' & ext & Hm' & Hall & Hle & _).
    rewrite Hm in Hm'. injection Hm' as <- ->.
    unfold within_budget. simpl. rewrite Htr.
    repeat rewrite ?count_app, ?count_cons.
    rewrite !count_debug_events by done.
    rewrite (count_attempts is_invocation p ext), (count_attempts is_query p ext) by done.
    change (count is_model_call []) with 0%nat.
    change (count is_invocation []) with 0%nat.
    change (count is_query []) with 0%nat.
    cbn [is_model_call is_invocation is_query]. split; [nia|lia].
  - intros e He w. destruct (action_event_kind e He) as (Hm & Hi & Hq).
    unfold within_budget. simpl. rewrite !count_app, !count_cons, Hm, Hi, Hq.
    change (count is_model_call []) with 0%nat.
    change (count is_invocation []) with 0%nat.
    change (count is_query []) with 0%nat.
    lia.
  - intros l s u w. unfold within_budget. simpl. lia.
Qed.

(** *** The budget of each invocation *)

Lemma budget_run_app n s tr1 tr2 :
  budget_run n s (tr1 ++ tr2)
  = match budget_run n s tr1 with
    | Some s' => budget_run n s' tr2
    | None => None
    end.
Proof.
  revert s. induction tr1 as [|e tr1 IH]; intros s; simpl; [done|].
  destruct (budget_step n s e); [apply IH|done].
Qed.

Lemma budget_step_action n s e : action_event env cm e -> budget_step n s e = Some s.
Proof. by destruct e. Qed.

Lemma budget_run_debug_events n s key text :
  budget_run n s (debug_events env key text) = Some s.
Proof. unfold debug_events. by destruct (DEBUG_IN_CHAT _). Qed.

(** The calls of one loop of model calls are within the budget when
    there are not too many of them. *)
Lemma budget_run_attempts n p ext c :
  Forall (fun e => (exists r, e = EvSceneRun p r) \/ is_error_log e = true) ext ->
  (c + count is_model_call ext <= n)%nat ->
  budget_run n (Some {| has_read := true; calls_made := c |}) ext
  = Some (Some {| has_read := true; calls_made := c + count is_model_call ext |}).
Proof.
  intros Hall. revert c. induction Hall as [|e ext He _ IH]; intros c Hle.
  - simpl. do 3 f_equal. unfold count. simpl. lia.
  - rewrite count_cons in Hle |- *. destruct He as [[r ->]|He].
    + simpl in Hle |- *. rewrite bool_decide_eq_true_2 by lia.
      rewrite IH by lia. do 3 f_equal. lia.
    + destruct e; try done. simpl in Hle |- *. by rewrite IH.
Qed.

#[local] Instance spends_within_preorder : PreOrder (spends_within env).
Proof.
  split.
  - intros w. exists []. split; [by rewrite app_nil_r|]. intros s Hs. simpl. eauto.
  - intros w1 w2 w3 (ext1 & Htr1 & H1) (ext2 & Htr2 & H2).
    exists (ext1 ++ ext2). split; [by rewrite Htr2, Htr1, app_assoc|].
    intros s Hs. destruct (H1 s Hs) as (s1 & Hrun1 & Hs1).
    destruct (H2 s1 Hs1) as (s2 & Hrun2 & Hs2).
    exists s2. by rewrite budget_run_app, Hrun1.
Qed.

Lemma agent_run_spends_within a d : steps (spends_within env) (agent_run env cm a d).
Proof.
  apply (loop_agent_run_fuel env cm (spends_within env)).
  - intros a' w l0 p w1 omr w2 Hp Hm.
    destruct (prepare_spec env cm a' w)
      as (l0' & p' & w1' & now & sta & table & Hp' & Htr & _).
    rewrite Hp in Hp'. injection Hp' as <- <- <-.
    destruct (model_loop_spec env p (Z.to_nat (AI_CHAT_LLM_API_MAX_RETRIES (config env))) w1)
      as (omr' & ext & Hm' & Hall & Hle & _).
    rewrite Hm in Hm'. injection Hm' as <- ->.
    set (n := Z.to_nat (AI_CHAT_LLM_API_MAX_RETRIES (config env))) in *.
    set (bs := map (entropy env (trace w)) (seq 0 4)) in *.
    set (q := EvQuery (chat_key cm) sta (AI_CHAT_CONTEXT_MAX_LENGTH (config env))
                (sqa_query table (chat_key cm) sta
                   (AI_CHAT_CONTEXT_MAX_LENGTH (config env)))) in *.
    exists (([EvUrandom bs] ++ debug_events env (chat_key cm) debug_thinking
               ++ [EvTime now; q]) ++ ext).
    split; [simpl; rewrite Htr; by rewrite <- app_assoc|].
    intros s Hs. fold n.
    exists (Some {| has_read := true; calls_made := 0 + count is_model_call ext |}).
    split; [|done].
    rewrite !budget_run_app.
    assert (budget_run n s [EvUrandom bs]
            = Some (Some {| has_read := false; calls_made := 0 |})) as ->
      by (by destruct s as [[[] c]|]).
    cbn beta iota. rewrite budget_run_app, budget_run_debug_events.
    change (budget_run n (Some {| has_read := false; calls_made := 0 |}) [EvTime now; q])
      with (Some (Some {| has_read := true; calls_made := 0 |})).
    apply (budget_run_attempts n p ext 0%nat Hall). simpl. exact Hle.
  - intros e He w. exists [e]. split; [done|]. intros s Hs.
    exists s. simpl. by rewrite budget_step_action.
  - intros l s u w. exists []. split; [by rewrite app_nil_r|]. intros s' Hs. simpl. eauto.
Qed.

End Budget.

(** X11: in a run, retries included, every invocation stays within its
    budget: the monitor [budget_run] accepts the events of the run, so
    each invocation (the events from its draw of a code to the next
    draw) reads the history exactly once, before its model calls, and
    makes at most [AI_CHAT_LLM_API_MAX_RETRIES] model calls.  In total
    there are as many history reads as invocations, at most the maximum
    times as many model calls, and at least one invocation. *)
Theorem model_calls_within_budget env cm a d w :
  let n := Z.to_nat (AI_CHAT_LLM_API_MAX_RETRIES (config env)) in
  let ev := new_events w (agent_run env cm a d w).2 in
  (exists s, budget_run n None ev = Some s /\ has_read_history s)
  /\ (count is_model_call ev <= n * count is_invocation ev)%nat
  /\ count is_query ev = count is_invocation ev
  /\ (1 <= count is_invocation ev)%nat.
Proof.
  intros n ev.
  destruct (agent_run_events env cm a d w) as [Htr _]. fold ev in Htr.
  split.
  { destruct (agent_run_spends_within env cm a d w) as (ext & Hext & Hrun).
    rewrite Htr in Hext. apply app_inv_head in Hext. rewrite Hext. by apply Hrun. }
  destruct (agent_run_within_budget env cm a d w) as [Hcalls Hreads].
  rewrite Htr, !count_app in Hcalls, Hreads.
  split; [unfold n; nia|]. split; [lia|].
  destruct (agent_run_starts env cm a d w) as [rest Hrest].
  rewrite Htr in Hrest. apply app_inv_head in Hrest. rewrite Hrest, count_cons. simpl. lia.
Qed.

(** An invocation that would make one model call too many, or read the
    history twice, is refused by the monitor. *)
Example budget_run_refuses :
  let p := {| prompt_chat_preset := ""; prompt_one_time_code := ""; prompt_chat_key := "";
              prompt_history := []; prompt_addition := [] |} in
  budget_run 1 None
    [EvUrandom []; EvQuery "" 0 0 []; EvSceneRun p (inl "e"); EvSceneRun p (inl "e");
     EvUrandom []; EvQuery "" 0 0 []] = None
  /\ budget_run 1 None [EvUrandom []; EvQuery "" 0 0 []; EvQuery "" 0 0 []] = None
  /\ budget_run 1 None [EvUrandom []; EvUrandom []; EvQuery "" 0 0 []] = None.
Proof. by repeat split. Qed.

(** ** The chain of retries is bounded *)

Section Chain.
Context (env : Env) (cm : ChatMessage) (k : nat).
Hypothesis resolve_at_most_k :
  forall mr ret_list, resolve env mr = inr ret_list -> (length ret_list <= k)%nat.

Lemma adds_bind {A B} b1 b2 (m : M A) (f : A -> M B) :
  adds_at_most b1 m -> (forall a, adds_at_most b2 (f a)) ->
  adds_at_most (b1 + b2) (m ≫= f).
Proof.
  intros Hm Hf w. rewrite bind_run. specialize (Hm w).
  destruct (m w) as [[a|e|] w1]; simpl in *; [|lia..].
  specialize (Hf a w1). lia.
Qed.

Lemma adds_events evs tr :
  Forall (fun e => is_invocation e = false) evs ->
  count is_invocation (tr ++ evs) = count is_invocation tr.
Proof.
  intros Hall. rewrite count_app. unfold count at 2.
  induction Hall as [|e evs He _ IH]; simpl; [lia|]. by rewrite He.
Qed.

Lemma adds_debug_events key text :
  Forall (fun e => is_invocation e = false) (debug_events env key text).
Proof. unfold debug_events. destruct (DEBUG_IN_CHAT _); repeat constructor. Qed.

Lemma adds_agent_exec_result b rec t c l d :
  (d < AI_SCRIPT_MAX_RETRY_TIMES (config env) -> adds_at_most b (rec cm (Some l) (d + 1))) ->
  adds_at_most (if d <? AI_SCRIPT_MAX_RETRY_TIMES (config env) then b else 0)
    (agent_exec_result env rec t c cm l d).
Proof.
  intros Hrec w. destruct t.
  - unfold agent_exec_result. run.
    rewrite (adds_events [_]) by (by repeat constructor). apply Nat.le_add_r.
  - assert (count is_invocation (trace (after_script_failure env c cm l d w))
            = count is_invocation (trace w)) as Hfail.
    { unfold after_script_failure. simpl. apply adds_events.
      apply Forall_app. split; [apply adds_debug_events|by repeat constructor]. }
    destruct (Py.endswith (sandbox_result env c cm w) (CODE_RUN_ERROR_FLAG env)) eqn:Hend.
    + rewrite agent_exec_result_failure by done.
      destruct (d <? AI_SCRIPT_MAX_RETRY_TIMES (config env)) eqn:Hd.
      * apply Z.ltb_lt in Hd. rewrite <- Hfail.
        unfold debug_message, send_message.
        destruct (DEBUG_IN_CHAT (config env)); run.
        -- etrans; [apply (Hrec Hd)|]. cbn [trace].
           rewrite (adds_events [_]) by (by repeat constructor). lia.
        -- apply (Hrec Hd).
      * unfold send_message. run.
        rewrite (adds_events [_]) by (by repeat constructor). lia.
    + rewrite agent_exec_result_success by done. cbn [snd trace]. rewrite app_assoc.
      rewrite (adds_events [_]) by (by repeat constructor).
      rewrite adds_events by apply adds_debug_events. apply Nat.le_add_r.
Qed.

Lemma adds_exec_ret_list b exec ret_list :
  (forall t c, adds_at_most b (exec t c)) ->
  adds_at_most (length ret_list * b) (exec_ret_list exec ret_list).
Proof.
  intros Hexec. induction ret_list as [|[t c] rest IH]; simpl.
  - intros w. simpl. lia.
  - apply adds_bind; [apply Hexec|intros _; exact IH].
Qed.

Lemma adds_persist : adds_at_most 0 (persist env).
Proof.
  intros w. unfold persist. run.
  destruct (mr_save env (trace w) _ _); run;
    [simpl; rewrite (adds_events [_]) by (by repeat constructor); lia|].
  match goal with
  | |- context [mr_save env ?tr ?f1 ?f2] => destruct (mr_save env tr f1 f2)
  end; simpl; rewrite <- !app_assoc; rewrite adds_events by (by repeat constructor); lia.
Qed.

Lemma adds_agent_run_fuel fuel a d :
  (Z.to_nat (AI_SCRIPT_MAX_RETRY_TIMES (config env) - d) < fuel)%nat ->
  adds_at_most (chain_bound k (Z.to_nat (AI_SCRIPT_MAX_RETRY_TIMES (config env) - d)))
    (agent_run_fuel env fuel cm a d).
Proof.
  revert a d. induction fuel as [|fuel IH]; intros a d Hfuel w; [lia|]. simpl.
  destruct (prepare_spec env cm a w) as (l0 & p & w1 & now & sta & table & Hp & Htr & _).
  destruct (model_loop_spec env p (Z.to_nat (AI_CHAT_LLM_API_MAX_RETRIES (config env))) w1)
    as (omr & ext & Hm & Hall & _).
  unfold agent_run_body. rewrite bind_run, Hp. cbn beta iota. rewrite bind_run, Hm.
  assert (count is_invocation (trace w1 ++ ext) = S (count is_invocation (trace w))) as Hone.
  { rewrite Htr. repeat rewrite ?count_app, ?count_cons.
    rewrite count_debug_events, (count_attempts is_invocation p ext) by done.
    change (count is_invocation []) with 0%nat. simpl. lia. }
  set (w2 := {| heap := heap w1; trace := trace w1 ++ ext |}) in *.
  set (h := Z.to_nat (AI_SCRIPT_MAX_RETRY_TIMES (config env) - d)) in *.
  assert (1 <= chain_bound k h)%nat as Hpos by (destruct h; simpl; lia).
  unfold respond. destruct omr as [mr|].
  - destruct (resolve env mr) as [e|ret_list] eqn:Hres.
    + run. simpl. rewrite (adds_events [_]) by (by repeat constructor).
      unfold w2. simpl. lia.
    + pose proof (resolve_at_most_k mr ret_list Hres) as Hk.
      set (b := if d <? AI_SCRIPT_MAX_RETRY_TIMES (config env)
                then chain_bound k (Z.to_nat (AI_SCRIPT_MAX_RETRY_TIMES (config env) - (d + 1)))
                else 0%nat).
      assert (adds_at_most (0 + length ret_list * b)
                (persist env;;
                 exec_ret_list
                   (fun t c => agent_exec_result env (agent_run_fuel env fuel) t c cm l0 d)
                   ret_list)) as Hrun.
      { apply adds_bind; [apply adds_persist|intros _].
        apply adds_exec_ret_list. intros t c. apply adds_agent_exec_result.
        intros Hd. apply IH. unfold h in Hfuel. lia. }
      specialize (Hrun w2). etrans; [exact Hrun|].
      change (trace w2) with (trace w1 ++ ext). rewrite Hone.
      assert (length ret_list * b <= k * b)%nat as Hkb by nia.
      assert (1 + k * b <= chain_bound k h)%nat as Hb.
      { unfold b. destruct (d <? AI_SCRIPT_MAX_RETRY_TIMES (config env)) eqn:Hd.
        - apply Z.ltb_lt in Hd.
          replace h with (S (Z.to_nat (AI_SCRIPT_MAX_RETRY_TIMES (config env) - (d + 1))))
            by (unfold h; lia).
          simpl. lia.
        - lia. }
      lia.
  - run. simpl. rewrite (adds_events [_]) by (by repeat constructor).
    unfold w2. simpl. lia.
Qed.

Lemma chain_bound_single h : (k <= 1)%nat -> (chain_bound k h <= S h)%nat.
Proof. intros Hk. induction h as [|h IH]; simpl; [lia|nia]. Qed.

End Chain.

(** X12: the chain of retries is bounded.  When every response resolves
    to at most [k] actions, a run that starts at depth [d] makes at most
    [1 + k + ... + k^h] invocations, where [h] is the number of levels
    left below the maximum depth; with at most one action per response
    that is at most [h + 1] invocations. *)
Theorem retry_chain_is_bounded env cm a d w k :
  (forall mr ret_list, resolve env mr = inr ret_list -> (length ret_list <= k)%nat) ->
  let h := Z.to_nat (AI_SCRIPT_MAX_RETRY_TIMES (config env) - d) in
  (count is_invocation (new_events w (agent_run env cm a d w).2) <= chain_bound k h)%nat
  /\ ((k <= 1)%nat ->
      (count is_invocation (new_events w (agent_run env cm a d w).2) <= S h)%nat).
Proof.
  intros Hk h.
  assert (count is_invocation (new_events w (agent_run env cm a d w).2)
            <= chain_bound k h)%nat as Hbound.
  { destruct (agent_run_events env cm a d w) as [Htr _].
    pose proof (adds_agent_run_fuel env cm k Hk (fuel_for env d) a d) as Hadds.
    specialize (Hadds ltac:(unfold fuel_for; lia) w).
    change (agent_run_fuel env (fuel_for env d) cm a d w) with (agent_run env cm a d w)
      in Hadds.
    rewrite Htr, count_app in Hadds. fold h in Hadds. lia. }
  split; [exact Hbound|].
  intros Hone. pose proof (chain_bound_single k h Hone). lia.
Qed.

Lemma retry_chain_is_bounded_witness :
  (count is_invocation
     (new_events Examples.w0
        (agent_run Examples.env_script_fails Examples.cm0 None 0%Z Examples.w0).2) <= 2)%nat.
Proof.
  refine (proj2 (retry_chain_is_bounded Examples.env_script_fails Examples.cm0 None 0
                   Examples.w0 1%nat _) _).
  - intros mr ret_list [= <-]. simpl. lia.
  - lia.
Defined.

(** ** What the retry is given *)

Section Retry.
Context (env : Env).

#[local] Existing Instance grows_preorder.

Lemma respond_grows cm l d omr : steps grows (respond env (agent_run env) cm l d omr).
Proof.
  apply (steps_respond grows env l); [| |apply agent_run_grows].
  - intros e _ w'. unfold grows. simpl. by apply prefix_app_r.
  - intros m w'. unfold grows. simpl. reflexivity.
Qed.

(** Below the maximum depth a failed script action is the nested
    invocation, entered in the world [before_retry]. *)
Lemma agent_exec_result_retry code cm l d w :
  Py.endswith (sandbox_result env code cm w) (CODE_RUN_ERROR_FLAG env) = true ->
  d < AI_SCRIPT_MAX_RETRY_TIMES (config env) ->
  agent_exec_result env (agent_run env) SCRIPT code cm l d w
  = agent_run env cm (Some l) (d + 1) (before_retry env code cm l d w).
Proof.
  intros Hfail Hd. rewrite agent_exec_result_failure by done.
  apply Z.ltb_lt in Hd. rewrite Hd. unfold before_retry, debug_message, debug_events.
  destruct (DEBUG_IN_CHAT (config env)); run; [done|].
  rewrite app_nil_r. by destruct (after_script_failure env code cm l d w).
Qed.

Lemma model_prompts_app tr1 tr2 :
  model_prompts (tr1 ++ tr2) = model_prompts tr1 ++ model_prompts tr2.
Proof. apply omap_app. Qed.

Lemma model_prompts_debug_events key text : model_prompts (debug_events env key text) = [].
Proof. unfold debug_events. by destruct (DEBUG_IN_CHAT _). Qed.

(** The calls of one loop of model calls all carry the same prompt. *)
Lemma model_prompts_attempts p ext :
  Forall (fun e => (exists r, e = EvSceneRun p r) \/ is_error_log e = true) ext ->
  model_prompts ext = replicate (count is_model_call ext) p.
Proof.
  induction 1 as [|e ext He _ IH]; [done|].
  rewrite count_cons. destruct He as [[r ->]|He].
  - simpl. unfold model_prompts in *. simpl. by rewrite IH.
  - destruct e; try done.
Qed.

End Retry.

(** X13: the retry is given the feedback.  When a script fails below the
    maximum depth and at least one model call is allowed, the next model
    call is made with a prompt for the same channel whose addition
    messages are the list as it was, followed by the failing script and
    the reply about the error: the nested invocation works on the
    caller's list, not on a new one. *)
Theorem retry_prompt_carries_feedback env code cm l d w ms :
  heap w !! l = Some ms ->
  Py.endswith (sandbox_result env code cm w) (CODE_RUN_ERROR_FLAG env) = true ->
  d < AI_SCRIPT_MAX_RETRY_TIMES (config env) ->
  0 < AI_CHAT_LLM_API_MAX_RETRIES (config env) ->
  exists p rest,
    model_prompts
      (new_events w (agent_exec_result env (agent_run env) SCRIPT code cm l d w).2)
    = p :: rest
    /\ prompt_addition p
       = ms ++ [script_message code;
                failure_reply env (err_msg_of env (sandbox_result env code cm w)) d]
    /\ prompt_chat_key p = chat_key cm.
Proof.
  intros Hms Hfail Hd Hn.
  rewrite agent_exec_result_retry by done.
  set (w' := before_retry env code cm l d w).
  assert (heap w' !! l
          = Some (ms ++ [script_message code;
                         failure_reply env (err_msg_of env (sandbox_result env code cm w)) d]))
    as Hl.
  { unfold w', before_retry, after_script_failure. simpl.
    rewrite list_lookup_alter_eq. unfold loc in *. by rewrite Hms. }
  destruct (prepare_spec env cm (Some l) w')
    as (l0 & p & w1 & now & sta & table & Hp & Htr & _ & _ & Hadd & Hcase & _).
  destruct (prepare_prompt env cm (Some l) w' l0 p w1 Hp) as [Hkey _].
  destruct (model_loop_spec env p (Z.to_nat (AI_CHAT_LLM_API_MAX_RETRIES (config env))) w1)
    as (omr & ext & Hm & Hall & _ & Homr).
  rewrite (agent_run_respond env cm (Some l) (d + 1) w' l0 p w1 omr _ Hp Hm).
  destruct (respond_grows env cm l0 (d + 1) omr {| heap := heap w1; trace := trace w1 ++ ext |})
    as [rest' Hrest].
  simpl in Hrest.
  assert (exists k, count is_model_call ext = S k) as [k Hk].
  { destruct omr as [mr|]; [destruct Homr as [-> _]; eauto|].
    destruct Homr as [-> _].
    exists (Nat.pred (Z.to_nat (AI_CHAT_LLM_API_MAX_RETRIES (config env)))). lia. }
  exists p, (replicate k p ++ model_prompts rest'). split; [|split; [|exact Hkey]].
  - set (ev := (debug_events env (chat_key cm) debug_running
                  ++ [EvRunCode code (chat_key cm) (sandbox_result env code cm w)])
               ++ debug_events env (chat_key cm)
                    (debug_retrying env (err_msg_of env (sandbox_result env code cm w)) d)
               ++ (EvUrandom (map (entropy env (trace w')) (seq 0 4))
                     :: debug_events env (chat_key cm) debug_thinking
                     ++ [EvTime now;
                         EvQuery (chat_key cm) sta
                           (AI_CHAT_CONTEXT_MAX_LENGTH (config env))
                           (sqa_query table (chat_key cm) sta
                              (AI_CHAT_CONTEXT_MAX_LENGTH (config env)))])
               ++ ext ++ rest').
    rewrite (new_events_eq w _ ev).
    + unfold ev. rewrite !model_prompts_app, !model_prompts_debug_events.
      rewrite (model_prompts_attempts p ext Hall), Hk.
      change (EvUrandom (map (entropy env (trace w')) (seq 0 4))
                :: debug_events env (chat_key cm) debug_thinking
                ++ [EvTime now;
                    EvQuery (chat_key cm) sta
                      (AI_CHAT_CONTEXT_MAX_LENGTH (config env))
                      (sqa_query table (chat_key cm) sta
                         (AI_CHAT_CONTEXT_MAX_LENGTH (config env)))])
        with ([EvUrandom (map (entropy env (trace w')) (seq 0 4))]
                ++ debug_events env (chat_key cm) debug_thinking
                ++ [EvTime now;
                    EvQuery (chat_key cm) sta
                      (AI_CHAT_CONTEXT_MAX_LENGTH (config env))
                      (sqa_query table (chat_key cm) sta
                         (AI_CHAT_CONTEXT_MAX_LENGTH (config env)))]).
      rewrite !model_prompts_app, !model_prompts_debug_events. reflexivity.
    + rewrite Hrest, Htr. unfold ev, w', before_retry, after_script_failure. simpl.
      repeat first [rewrite <- app_assoc | progress simpl]. reflexivity.
  - rewrite Hadd. destruct Hcase as [([= <-] & -> & _)|(_ & _ & Hempty)].
    + by rewrite Hl.
    + specialize (Hempty l eq_refl). rewrite Hl in Hempty. simpl in Hempty.
      by destruct ms.
Qed.

Lemma retry_prompt_carries_feedback_witness :
  exists p rest,
    model_prompts
      (new_events {| heap := [[]]; trace := [] |}
         (agent_exec_result Examples.env_script_fails (agent_run Examples.env_script_fails)
            SCRIPT "boom()" Examples.cm0 0%nat 0 {| heap := [[]]; trace := [] |}).2)
    = p :: rest
    /\ prompt_addition p
       = [] ++ [script_message "boom()";
                failure_reply Examples.env_script_fails
                  (err_msg_of Examples.env_script_fails
                     (sandbox_result Examples.env_script_fails "boom()" Examples.cm0
                        {| heap := [[]]; trace := [] |})) 0]
    /\ prompt_chat_key p = chat_key Examples.cm0.
Proof.
  refine (retry_prompt_carries_feedback Examples.env_script_fails "boom()" Examples.cm0
            0%nat 0 {| heap := [[]]; trace := [] |} [] _ _ _ _).
  - reflexivity.
  - reflexivity.
  - simpl. lia.
  - simpl. lia.
Defined.

(** ** How a run ends *)

Section Endings.
Context (env : Env) (cm : ChatMessage).

Lemma raises_bind {A B} P (m : M A) (f : A -> M B) :
  raises P m -> (forall a, raises P (f a)) -> raises P (m ≫= f).
Proof.
  intros Hm Hf w e w' Hrun. rewrite bind_run in Hrun.
  destruct (m w) as [[a|e1|] w1] eqn:Em; [|injection Hrun as <- <-|done].
  - exact (Hf a w1 e w' Hrun).
  - exact (Hm w e1 w1 Em).
Qed.

Lemma raises_persist : raises (raised_after cm) (persist env).
Proof.
  intros w e w'. unfold persist. run.
  destruct (mr_save env (trace w) _ _) as [msg|]; run.
  { intros [= <- <-]. simpl. do 2 eexists. apply last_snoc. }
  match goal with
  | |- context [mr_save env ?tr ?f1 ?f2] => destruct (mr_save env tr f1 f2) as [msg|]
  end; [|done].
  intros [= <- <-]. simpl. do 2 eexists. apply last_snoc.
Qed.

(** An action raises only what the nested invocation raises. *)
Lemma raises_agent_exec_result P rec t c l d :
  raises P (rec cm (Some l) (d + 1)) ->
  raises P (agent_exec_result env rec t c cm l d).
Proof.
  intros Hrec w e w' Hrun. destruct t; [done|].
  destruct (Py.endswith (sandbox_result env c cm w) (CODE_RUN_ERROR_FLAG env)) eqn:Hend.
  - rewrite agent_exec_result_failure in Hrun by done.
    destruct (d <? AI_SCRIPT_MAX_RETRY_TIMES (config env)); [|done].
    revert Hrun. unfold debug_message, send_message.
    destruct (DEBUG_IN_CHAT (config env)); run; apply Hrec.
  - by rewrite agent_exec_result_success in Hrun.
Qed.

Lemma raises_exec_ret_list P exec ret_list :
  (forall t c, raises P (exec t c)) -> raises P (exec_ret_list exec ret_list).
Proof.
  intros Hexec. induction ret_list as [|[t c] rest IH]; simpl; [done|].
  apply raises_bind; [apply Hexec|intros _; exact IH].
Qed.

Lemma raises_agent_run_fuel fuel a d :
  raises (raised_after cm) (agent_run_fuel env fuel cm a d).
Proof.
  revert a d. induction fuel as [|fuel IH]; intros a d w e w' Hrun; [done|].
  simpl in Hrun. unfold agent_run_body in Hrun.
  destruct (prepare_spec env cm a w) as (l0 & p & w1 & now & sta & table & Hp & _).
  destruct (model_loop_spec env p (Z.to_nat (AI_CHAT_LLM_API_MAX_RETRIES (config env))) w1)
    as (omr & ext & Hm & _).
  rewrite bind_run, Hp in Hrun. cbn beta iota in Hrun. rewrite bind_run, Hm in Hrun.
  revert Hrun. unfold respond. destruct omr as [mr|].
  - destruct (resolve env mr) as [err|ret_list].
    + run. intros [= <- <-]. simpl. split; [eauto|apply last_snoc].
    + apply raises_bind; [apply raises_persist|intros _].
      apply raises_exec_ret_list. intros t c. apply raises_agent_exec_result, IH.
  - run. intros [= <- <-]. simpl. split; [done|apply last_snoc].
Qed.

Section Returns.
Context (R : relation World) `{!PreOrder R}.

(** [R] holds across events that are none of a draw, a model call, a
    save or an unrecorded message, and across an invocation up to its
    second save, when it gets that far. *)
Hypothesis R_uneventful : forall evs w w',
  trace w' = trace w ++ evs ->
  Forall (fun e => uneventful e = true) evs ->
  R w w'.
Hypothesis R_invocation : forall a w l0 p w1 mr w2 w3,
  prepare env cm a w = (Return (l0, p), w1) ->
  model_loop env p (Z.to_nat (AI_CHAT_LLM_API_MAX_RETRIES (config env))) w1
    = (Return (Some mr), w2) ->
  persist env w2 = (Return tt, w3) ->
  R w w3.

Lemma returns_bind {A B} (m : M A) (f : A -> M B) :
  returns R m -> (forall a, returns R (f a)) -> returns R (m ≫= f).
Proof.
  intros Hm Hf w b w' Hrun. rewrite bind_run in Hrun.
  destruct (m w) as [[a|e1|] w1] eqn:Em; [|done..].
  etrans; [exact (Hm w a w1 Em)|exact (Hf a w1 b w' Hrun)].
Qed.

Lemma uneventful_debug_events key text :
  Forall (fun e => uneventful e = true) (debug_events env key text).
Proof. unfold debug_events. destruct (DEBUG_IN_CHAT _); repeat constructor. Qed.

Lemma returns_agent_exec_result rec t c l d :
  returns R (rec cm (Some l) (d + 1)) ->
  returns R (agent_exec_result env rec t c cm l d).
Proof.
  intros Hrec w [] w' Hrun. destruct t.
  - injection Hrun as <-.
    apply (R_uneventful [EvSendAgentMessage (chat_key cm) c (Some true)]);
      [reflexivity|by repeat constructor].
  - assert (Forall (fun e => uneventful e = true)
              (debug_events env (chat_key cm) debug_running
                 ++ [EvRunCode c (chat_key cm) (sandbox_result env c cm w)])) as Hevs.
    { apply Forall_app. split; [apply uneventful_debug_events|by repeat constructor]. }
    destruct (Py.endswith (sandbox_result env c cm w) (CODE_RUN_ERROR_FLAG env)) eqn:Hend.
    + rewrite agent_exec_result_failure in Hrun by done.
      assert (R w (after_script_failure env c cm l d w)) as Hfail
        by exact (R_uneventful _ w (after_script_failure env c cm l d w) eq_refl Hevs).
      etrans; [exact Hfail|].
      destruct (d <? AI_SCRIPT_MAX_RETRY_TIMES (config env)).
      * revert Hrun. apply returns_bind; [|intros _; exact Hrec].
        intros w2 [] w3. unfold debug_message.
        destruct (DEBUG_IN_CHAT (config env)); intros [= <-]; [|reflexivity].
        eapply R_uneventful; [reflexivity|by repeat constructor].
      * injection Hrun as <-.
        eapply R_uneventful; [reflexivity|by repeat constructor].
    + rewrite agent_exec_result_success in Hrun by done. injection Hrun as <-.
      eapply R_uneventful; [simpl; reflexivity|exact Hevs].
Qed.

Lemma returns_exec_ret_list exec ret_list :
  (forall t c, returns R (exec t c)) ->
  returns R (exec_ret_list exec ret_list).
Proof.
  intros Hexec. induction ret_list as [|[t c] rest IH]; simpl.
  - intros w [] w' [= <-]. reflexivity.
  - apply returns_bind; [apply Hexec|intros _; exact IH].
Qed.

(** Every invocation for [cm] that returns, with the invocations nested
    in it, keeps [R]. *)
Lemma returns_agent_run_fuel fuel a d :
  returns R (agent_run_fuel env fuel cm a d).
Proof.
  revert a d. induction fuel as [|fuel IH]; intros a d w [] w' Hrun; [done|].
  simpl in Hrun. unfold agent_run_body in Hrun.
  destruct (prepare_spec env cm a w) as (l0 & p & w1 & now & sta & table & Hp & _).
  destruct (model_loop_spec env p (Z.to_nat (AI_CHAT_LLM_API_MAX_RETRIES (config env))) w1)
    as (omr & ext & Hm & _).
  rewrite bind_run, Hp in Hrun. cbn beta iota in Hrun. rewrite bind_run, Hm in Hrun.
  revert Hrun. unfold respond. destruct omr as [mr|]; [|done].
  destruct (resolve env mr) as [err|ret_list]; [done|].
  rewrite bind_run.
  destruct (persist env {| heap := heap w1; trace := trace w1 ++ ext |}) as [[[]|e1|] w3] eqn:Es;
    [|done..].
  intros Hrun. etrans; [exact (R_invocation a w l0 p w1 mr _ w3 Hp Hm Es)|].
  revert Hrun.
  apply returns_exec_ret_list. intros t c. apply returns_agent_exec_result, IH.
Qed.

End Returns.

(** *** Totals *)

#[local] Instance answered_preorder : PreOrder answered.
Proof.
  split.
  - intros w. unfold answered. lia.
  - intros w1 w2 w3. unfold answered. lia.
Qed.

Lemma count_uneventful kind evs :
  (forall e, uneventful e = true -> kind e = false) ->
  Forall (fun e => uneventful e = true) evs ->
  count kind evs = 0%nat.
Proof.
  intros Hkind. induction 1 as [|e evs He _ IH]; [done|].
  by rewrite count_cons, (Hkind e He), IH.
Qed.

Lemma answered_uneventful evs w w' :
  trace w' = trace w ++ evs ->
  Forall (fun e => uneventful e = true) evs ->
  answered w w'.
Proof.
  intros Htr Hall. unfold answered. rewrite Htr, !count_app.
  rewrite (count_uneventful is_answer evs), (count_uneventful is_invocation evs),
    (count_uneventful is_saved evs), (count_uneventful is_save evs),
    (count_uneventful is_unrecorded evs); try done.
  - lia.
  - by intros [| | | |? ? []| | | | |].
  - by intros [| | | | | | | | |].
  - by intros [| | | | | | | |? ? []|].
  - by intros [| | | | | | | | |].
  - by intros [| | | | |? []| | | |].
Qed.

(** The two saves of step 6, when both go through. *)
Lemma persist_returns w a w' :
  persist env w = (Return a, w') ->
  exists prompt_file response_file stamp1 stamp2 prompt_file' response_file',
    trace w' = trace w ++ [EvSave prompt_file response_file None;
                           EvStrftime stamp1; EvStrftime stamp2;
                           EvSave prompt_file' response_file' None].
Proof.
  unfold persist. run.
  destruct (mr_save env (trace w) _ _) as [msg|] eqn:Hs1; run; [done|].
  match goal with
  | |- context [mr_save env ?tr ?f1 ?f2] => destruct (mr_save env tr f1 f2) as [msg|]
  end; [done|].
  intros [= <- <-]. simpl. do 6 eexists.
  repeat first [rewrite <- app_assoc | progress simpl]. reflexivity.
Qed.

(** The loop of model calls adds one answered call when it ends with a
    response and none otherwise. *)
Lemma model_loop_answers p n w :
  count is_answer (trace (model_loop env p n w).2)
  = (count is_answer (trace w)
     + match (model_loop env p n w).1 with Return (Some _) => 1 | _ => 0 end)%nat.
Proof.
  revert w. induction n as [|n IH]; intros w; simpl; [run; lia|].
  run. destruct (scene_run env (trace w) p) as [e|mr].
  - run. rewrite IH. simpl. rewrite !count_app. unfold count at 2 3. simpl.
    match goal with |- context [(_ + 0 + 0 + ?x)%nat] => generalize x end. intros x. lia.
  - simpl. rewrite count_app. unfold count at 2. simpl. lia.
Qed.

Lemma answered_invocation a w l0 p w1 mr w2 w3 :
  prepare env cm a w = (Return (l0, p), w1) ->
  model_loop env p (Z.to_nat (AI_CHAT_LLM_API_MAX_RETRIES (config env))) w1
    = (Return (Some mr), w2) ->
  persist env w2 = (Return tt, w3) ->
  answered w w3.
Proof.
  intros Hp Hm Es.
  destruct (prepare_spec env cm a w)
    as (l0' & p' & w1' & now & sta & table & Hp' & Htr & _).
  rewrite Hp in Hp'. injection Hp' as <- <- <-.
  destruct (model_loop_spec env p (Z.to_nat (AI_CHAT_LLM_API_MAX_RETRIES (config env))) w1)
    as (omr & ext & Hm' & Hall & _).
  pose proof (model_loop_answers p (Z.to_nat (AI_CHAT_LLM_API_MAX_RETRIES (config env))) w1)
    as Hans.
  rewrite Hm in Hans. simpl in Hans.
  rewrite Hm in Hm'. injection Hm' as <- ->.
  destruct (persist_returns _ _ _ Es) as (f1 & f2 & s1 & s2 & f3 & f4 & Hs).
  unfold answered. rewrite Hs. simpl in Hans |- *.
  rewrite !(count_app _ (trace w1 ++ ext)), Hans.
  repeat rewrite ?count_app, ?count_cons.
  rewrite (count_attempts is_invocation p ext), (count_attempts is_saved p ext),
    (count_attempts is_save p ext), (count_attempts is_unrecorded p ext) by done.
  rewrite Htr. repeat rewrite ?count_app, ?count_cons.
  rewrite !count_debug_events by done.
  change (count is_answer []) with 0%nat.
  change (count is_invocation []) with 0%nat.
  change (count is_saved []) with 0%nat.
  change (count is_save []) with 0%nat.
  change (count is_unrecorded []) with 0%nat.
  cbn [is_answer is_invocation is_saved is_save is_unrecorded]. lia.
Qed.

Lemma agent_run_answered a d : returns answered (agent_run env cm a d).
Proof.
  apply (returns_agent_run_fuel answered answered_uneventful answered_invocation).
Qed.

(** *** Each invocation *)

Lemma answer_run_app s tr1 tr2 :
  answer_run s (tr1 ++ tr2)
  = match answer_run s tr1 with
    | Some s' => answer_run s' tr2
    | None => None
    end.
Proof.
  revert s. induction tr1 as [|e tr1 IH]; intros s; simpl; [done|].
  destruct (answer_step s e); [apply IH|done].
Qed.

Lemma answer_run_uneventful s evs :
  Forall (fun e => uneventful e = true) evs -> answer_run s evs = Some s.
Proof.
  induction 1 as [|e evs He _ IH]; simpl; [done|].
  assert (answer_step s e = Some s) as -> by (by destruct e as [| | | |? ? []| | | | |]).
  exact IH.
Qed.

Lemma answer_run_failed_attempts p errs :
  answer_run (Some Drawn) (failed_attempts p errs) = Some (Some Drawn).
Proof. induction errs as [|e errs IH]; simpl; [done|exact IH]. Qed.

(** Once an invocation has started, the monitor is never back in its
    first state. *)
Lemma answer_run_started x tr s :
  answer_run (Some x) tr = Some s -> is_Some s.
Proof.
  revert x. induction tr as [|e tr IH]; intros x; simpl; [intros [= <-]; eauto|].
  destruct (answer_step (Some x) e) as [s'|] eqn:Hstep; [|done].
  assert (exists y, s' = Some y) as [y ->]
    by (destruct e as [| | | |? ? []|? []| | |? ? []|], x; simplify_eq/=; eauto).
  apply IH.
Qed.

(** The loop of model calls, when it ends with a response: calls that
    failed, each with its log, then the call that succeeded. *)
Lemma model_loop_returns p n w mr w' :
  model_loop env p n w = (Return (Some mr), w') ->
  exists errs, trace w' = trace w ++ failed_attempts p errs ++ [EvSceneRun p (inr mr)].
Proof.
  revert w. induction n as [|n IH]; intros w; simpl; [done|].
  run. destruct (scene_run env (trace w) p) as [e|mr'] eqn:Er.
  - run. intros Hrun. destruct (IH _ Hrun) as [errs Htr].
    exists (e :: errs). rewrite Htr. simpl.
    repeat first [rewrite <- app_assoc | progress simpl]. reflexivity.
  - intros [= <- <-]. exists []. reflexivity.
Qed.

#[local] Instance completes_preorder : PreOrder completes.
Proof.
  split.
  - intros w. exists []. split; [by rewrite app_nil_r|]. intros s Hs. simpl. eauto.
  - intros w1 w2 w3 (ext1 & Htr1 & H1) (ext2 & Htr2 & H2).
    exists (ext1 ++ ext2). split; [by rewrite Htr2, Htr1, app_assoc|].
    intros s Hs. destruct (H1 s Hs) as (s1 & Hrun1 & Hs1).
    destruct (H2 s1 Hs1) as (s2 & Hrun2 & Hs2).
    exists s2. by rewrite answer_run_app, Hrun1.
Qed.

Lemma completes_uneventful evs w w' :
  trace w' = trace w ++ evs ->
  Forall (fun e => uneventful e = true) evs ->
  completes w w'.
Proof.
  intros Htr Hall. exists evs. split; [done|]. intros s Hs.
  exists s. by rewrite answer_run_uneventful.
Qed.

Lemma completes_invocation a w l0 p w1 mr w2 w3 :
  prepare env cm a w = (Return (l0, p), w1) ->
  model_loop env p (Z.to_nat (AI_CHAT_LLM_API_MAX_RETRIES (config env))) w1
    = (Return (Some mr), w2) ->
  persist env w2 = (Return tt, w3) ->
  completes w w3.
Proof.
  intros Hp Hm Es.
  destruct (prepare_spec env cm a w)
    as (l0' & p' & w1' & now & sta & table & Hp' & Htr & _).
  rewrite Hp in Hp'. injection Hp' as <- <- <-.
  destruct (model_loop_returns _ _ _ _ _ Hm) as [errs Hloop].
  destruct (persist_returns _ _ _ Es) as (f1 & f2 & s1 & s2 & f3 & f4 & Hs).
  set (q := EvQuery (chat_key cm) sta (AI_CHAT_CONTEXT_MAX_LENGTH (config env))
              (sqa_query table (chat_key cm) sta
                 (AI_CHAT_CONTEXT_MAX_LENGTH (config env)))) in *.
  set (bs := map (entropy env (trace w)) (seq 0 4)) in *.
  exists ([EvUrandom bs]
            ++ (debug_events env (chat_key cm) debug_thinking ++ [EvTime now; q])
            ++ failed_attempts p errs
            ++ [EvSceneRun p (inr mr); EvSave f1 f2 None; EvStrftime s1; EvStrftime s2;
                EvSave f3 f4 None]).
  split.
  { rewrite Hs, Hloop, Htr. repeat first [rewrite <- app_assoc | progress simpl]. reflexivity. }
  intros s Hs'. exists (Some SavedTwice). split; [|by right].
  rewrite answer_run_app.
  assert (answer_run s [EvUrandom bs] = Some (Some Drawn)) as ->
    by (by destruct Hs' as [->| ->]).
  cbn beta iota. rewrite answer_run_app.
  rewrite answer_run_uneventful
    by (apply Forall_app; split; [apply uneventful_debug_events|by repeat constructor]).
  cbn beta iota. rewrite answer_run_app, answer_run_failed_attempts. reflexivity.
Qed.

Lemma agent_run_completes a d : returns completes (agent_run env cm a d).
Proof.
  apply (returns_agent_run_fuel completes completes_uneventful completes_invocation).
Qed.

End Endings.

(** X14: when a run raises, nothing happens after the failure, also when
    the failure is in a nested invocation: the last event of the trace
    is the apology to the channel for [SceneRuntimeError], the error log
    with the text of the exception for [ResolveError], and the call of
    [mr.save] that failed for any other exception.  The later actions of
    every enclosing invocation are skipped and no notice about retries
    is sent. *)
Theorem error_ends_the_run env cm a d w e w' :
  agent_run env cm a d w = (Raise e, w') ->
  match e with
  | SceneRuntimeError msg =>
      msg = llm_fatal
      /\ last (trace w') = Some (EvSendAgentMessage (chat_key cm) apology None)
  | ResolveError msg =>
      (exists err, msg = resolve_failed err) /\ last (trace w') = Some (EvLogError msg)
  | Exception msg =>
      exists prompt_file response_file,
        last (trace w') = Some (EvSave prompt_file response_file (Some msg))
  end.
Proof.
  intros Hrun. exact (raises_agent_run_fuel env cm (fuel_for env d) a d w e w' Hrun).
Qed.

Lemma error_ends_the_run_witness :
  llm_fatal = llm_fatal
  /\ last (trace (agent_run Scenarios.env_down_at_retry Examples.cm0 None 0 Examples.w0).2)
     = Some (EvSendAgentMessage (chat_key Examples.cm0) apology None).
Proof.
  refine (error_ends_the_run Scenarios.env_down_at_retry Examples.cm0 None 0 Examples.w0
            (SceneRuntimeError llm_fatal)
            (agent_run Scenarios.env_down_at_retry Examples.cm0 None 0 Examples.w0).2 _).
  vm_compute. reflexivity.
Defined.

(** X15: when a run returns, every invocation in it, nested ones
    included, got an answer from the model and saved it twice: the
    monitor [answer_run] accepts the events of the run and ends with the
    second save of the last invocation, so each invocation (the events
    from its draw of a code to the next draw) has failed model calls,
    then one answered call, then two saves that went through, and the
    apology was not sent.  In total there are as many answered model
    calls as invocations and twice as many saves, none of which
    failed. *)
Theorem normal_return_means_answered env cm a d w w' :
  agent_run env cm a d w = (Return tt, w') ->
  let ev := new_events w w' in
  answer_run None ev = Some (Some SavedTwice)
  /\ count is_answer ev = count is_invocation ev
  /\ count is_save ev = (2 * count is_invocation ev)%nat
  /\ count is_saved ev = count is_save ev
  /\ count is_unrecorded ev = 0%nat.
Proof.
  intros Hrun ev.
  destruct (agent_run_events env cm a d w) as [Htr _].
  rewrite Hrun in Htr. simpl in Htr. fold ev in Htr.
  split.
  - destruct (agent_run_completes env cm a d w tt w' Hrun) as (ext & Hext & Hmon).
    rewrite Htr in Hext. apply app_inv_head in Hext. rewrite Hext.
    destruct (Hmon None) as (s & Hs & Hsaved); [by left|].
    destruct (agent_run_starts env cm a d w) as [rest Hrest].
    rewrite Hrun in Hrest. simpl in Hrest. rewrite Htr, Hext in Hrest.
    apply app_inv_head in Hrest. rewrite Hrest in Hs |- *.
    destruct (answer_run_started Drawn rest s Hs) as [y ->].
    destruct Hsaved as [?|[= ->]]; [done|exact Hs].
  - pose proof (agent_run_answered env cm a d w tt w' Hrun) as Hans.
    unfold answered in Hans. rewrite Htr, !count_app in Hans. lia.
Qed.

Lemma normal_return_means_answered_witness :
  let ev :=
    new_events Examples.w0
      (agent_run Scenarios.env_debug Examples.cm0 None 0 Examples.w0).2 in
  answer_run None ev = Some (Some SavedTwice)
  /\ count is_answer ev = count is_invocation ev
  /\ count is_save ev = (2 * count is_invocation ev)%nat
  /\ count is_saved ev = count is_save ev
  /\ count is_unrecorded ev = 0%nat.
Proof.
  refine (normal_return_means_answered Scenarios.env_debug Examples.cm0 None 0 Examples.w0
            (agent_run Scenarios.env_debug Examples.cm0 None 0 Examples.w0).2 _).
  vm_compute. reflexivity.
Defined.

(** The monitor refuses a trace in which an invocation does not get an
    answer, or saves only once, before the next one starts. *)
Example answer_run_refuses :
  let p := {| prompt_chat_preset := ""; prompt_one_time_code := ""; prompt_chat_key := "";
              prompt_history := []; prompt_addition := [] |} in
  let mr := {| response_text := "" |} in
  answer_run None [EvUrandom []; EvSceneRun p (inl "e"); EvUrandom []] = None
  /\ answer_run None
       [EvUrandom []; EvSceneRun p (inr mr); EvSave "" "" None; EvUrandom []] = None
  /\ answer_run None
       [EvUrandom []; EvSceneRun p (inr mr); EvSceneRun p (inr mr)] = None.
Proof. by repeat split. Qed.

(** ** The lists a run makes *)

Section SharedList.
Context (env : Env) (cm : ChatMessage).

#[local] Instance shares_preorder l : PreOrder (shares l).
Proof.
  split.
  - intros w Hne. done.
  - intros w1 w2 w3 H12 H23 Hne. destruct (H12 Hne) as [Hlen Hne2].
    destruct (H23 Hne2) as [Hlen' Hne3]. split; [congruence|done].
Qed.

Lemma alter_nonempty l f (h : list (list PromptMessage)) :
  (forall ms, f ms <> []) ->
  (l < length h)%nat ->
  length (alter f l h) = length h /\ default [] (alter f l h !! l) <> [].
Proof.
  intros Hf Hl. rewrite length_alter. split; [done|].
  destruct (lookup_lt_is_Some_2 h l Hl) as [ms Hms].
  rewrite list_lookup_alter_eq. unfold loc in *. rewrite Hms. simpl. apply Hf.
Qed.

(** A nested invocation, which is given a list that holds an entry,
    works on that list. *)
Lemma agent_run_fuel_shares fuel l d : steps (shares l) (agent_run_fuel env fuel cm (Some l) d).
Proof.
  revert d. induction fuel as [|fuel IH]; intros d w; simpl; [reflexivity|].
  destruct (prepare_spec env cm (Some l) w)
    as (l0 & p & w1 & now & sta & table & Hp & _ & _ & _ & _ & Hcase & _).
  destruct (model_loop_spec env p (Z.to_nat (AI_CHAT_LLM_API_MAX_RETRIES (config env))) w1)
    as (omr & ext & Hm & _).
  destruct Hcase as [([= <-] & Hheap & _)|(_ & _ & Hempty)].
  - eapply (agent_run_body_steps env (shares l)); [exact Hp|exact Hm| |].
    + intros Hne. unfold nonempty_at. simpl. by rewrite Hheap.
    + apply (steps_respond (shares l) env l); [| |apply IH].
      * intros e _ w' Hne. done.
      * intros m w' Hne. unfold nonempty_at in Hne.
        destruct (heap w' !! l) as [ms|] eqn:Hms; [|done].
        refine (alter_nonempty l (fun ms => ms ++ [m]) (heap w') _ _).
        -- intros ms'. by destruct ms'.
        -- by eapply lookup_lt_Some.
  - intros Hne. by specialize (Hempty l eq_refl).
Qed.

Lemma persist_heap w : heap (persist env w).2 = heap w.
Proof.
  unfold persist. run.
  destruct (mr_save env (trace w) _ _); run; [done|].
  by match goal with
     | |- context [mr_save env ?tr ?f1 ?f2] => destruct (mr_save env tr f1 f2)
     end.
Qed.

(** An action makes no list object. *)
Lemma agent_exec_result_heap t c l d w :
  (l < length (heap w))%nat ->
  length (heap (agent_exec_result env (agent_run env) t c cm l d w).2) = length (heap w).
Proof.
  intros Hl. destruct t; [done|].
  destruct (Py.endswith (sandbox_result env c cm w) (CODE_RUN_ERROR_FLAG env)) eqn:Hend.
  - destruct (alter_nonempty l
                (fun ms => ms ++ [script_message c;
                                  failure_reply env (err_msg_of env (sandbox_result env c cm w)) d])
                (heap w))
      as [Hlen Hne]; [intros ms; by destruct ms|done|].
    destruct (Z.lt_ge_cases d (AI_SCRIPT_MAX_RETRY_TIMES (config env))) as [Hd|Hd].
    + rewrite agent_exec_result_retry by done.
      destruct (agent_run_fuel_shares (fuel_for env (d + 1)) l (d + 1)
                  (before_retry env c cm l d w)) as [Hlen' _]; [exact Hne|].
      unfold agent_run. rewrite Hlen'. exact Hlen.
    + rewrite agent_exec_result_failure by done.
      apply Z.ltb_ge in Hd. rewrite Hd. exact Hlen.
  - by rewrite agent_exec_result_success.
Qed.

Lemma exec_ret_list_heap l d ret_list w :
  (l < length (heap w))%nat ->
  length (heap (exec_ret_list
                  (fun t c => agent_exec_result env (agent_run env) t c cm l d)
                  ret_list w).2)
  = length (heap w).
Proof.
  revert w. induction ret_list as [|[t c] rest IH]; intros w Hl; simpl; [done|].
  rewrite bind_run. pose proof (agent_exec_result_heap t c l d w Hl) as Hlen.
  destruct (agent_exec_result env (agent_run env) t c cm l d w) as [[[]|e|] w1];
    simpl in Hlen; [|done..].
  rewrite IH by lia. done.
Qed.

End SharedList.

(** X16: a run makes at most one list object.  The first invocation
    makes a new list exactly when it is given [None] or an empty list,
    and every nested invocation works on the list of the first one. *)
Theorem retries_share_one_list env cm a d w :
  length (heap (agent_run env cm a d w).2)
  = (length (heap w)
     + match a with
       | None => 1
       | Some l => match default [] (heap w !! l) with [] => 1 | _ :: _ => 0 end
       end)%nat.
Proof.
  destruct (prepare_spec env cm a w)
    as (l0 & p & w1 & now & sta & table & Hp & _ & _ & _ & _ & Hcase & _).
  destruct (model_loop_spec env p (Z.to_nat (AI_CHAT_LLM_API_MAX_RETRIES (config env))) w1)
    as (omr & ext & Hm & _).
  rewrite (agent_run_respond env cm a d w l0 p w1 omr _ Hp Hm).
  assert (l0 < length (heap w1))%nat as Hl0.
  { destruct Hcase as [(_ & -> & Hne)|(-> & -> & _)].
    - destruct (heap w !! l0) as [ms|] eqn:Hms; [by eapply lookup_lt_Some|done].
    - rewrite length_app. simpl. lia. }
  assert (length (heap (respond env (agent_run env) cm l0 d omr
                          {| heap := heap w1; trace := trace w1 ++ ext |}).2)
          = length (heap w1)) as Hlen.
  { unfold respond. destruct omr as [mr|]; [|done].
    destruct (resolve env mr) as [err|ret_list]; [done|].
    rewrite bind_run.
    pose proof (persist_heap env {| heap := heap w1; trace := trace w1 ++ ext |}) as Hpersist.
    destruct (persist env {| heap := heap w1; trace := trace w1 ++ ext |}) as [[[]|e|] w3];
      simpl in Hpersist; [|simpl; by rewrite Hpersist..].
    rewrite exec_ret_list_heap by (rewrite Hpersist; exact Hl0).
    by rewrite Hpersist. }
  rewrite Hlen.
  destruct Hcase as [(-> & -> & Hne)|(_ & -> & Hempty)].
  - destruct (default [] (heap w !! l0)); [done|lia].
  - rewrite length_app. simpl. destruct a as [l|]; [|done].
    by rewrite (Hempty l eq_refl).
Qed.

(** ** Edge cases of the error text *)

Lemma endswith_self s : Py.endswith s s = true.
Proof.
  unfold Py.endswith. apply bool_decide_eq_true. by rewrite Nat.sub_diag.
Qed.

Lemma endswith_empty s : Py.endswith s "" = true.
Proof.
  unfold Py.endswith. apply bool_decide_eq_true. simpl.
  rewrite Nat.sub_0_r. apply drop_all.
Qed.

(** [s[:-len(s)]] and [s[:-0]] are empty. *)
Lemma str_slice_to_all s : Py.str_slice_to (- Py.len s) s = "".
Proof.
  unfold Py.str_slice_to, Py.slice_to, Py.slice_index, Py.len.
  destruct (- Z.of_nat (length (Py.chars s)) <? 0) eqn:E.
  - by replace (Z.to_nat (Z.of_nat (length (Py.chars s)) + - Z.of_nat (length (Py.chars s))))
      with 0%nat by lia.
  - apply Z.ltb_ge in E.
    by replace (Z.to_nat (- Z.of_nat (length (Py.chars s)))) with 0%nat by lia.
Qed.

Lemma str_slice_to_zero s : Py.str_slice_to (- Py.len "") s = "".
Proof. reflexivity. Qed.

(** X17: a sandbox result that is the error marker and nothing else is
    a failure without an error text: the entry added for the model, and
    the debug notice, say [No error message] in its place. *)
Theorem bare_marker_gets_placeholder env rec code cm l d w :
  sandbox_result env code cm w = CODE_RUN_ERROR_FLAG env ->
  agent_exec_result env rec SCRIPT code cm l d w =
  (if d <? AI_SCRIPT_MAX_RETRY_TIMES (config env)
   then debug_message env (chat_key cm) (debug_retrying env "No error message" d);;
        rec cm (Some l) (d + 1)
   else send_message (chat_key cm) max_retries_notice)
    {| heap := alter (fun ms => ms ++ [script_message code;
                                       failure_reply env "No error message" d])
                 l (heap w);
       trace := trace w ++ debug_events env (chat_key cm) debug_running
                  ++ [EvRunCode code (chat_key cm) (CODE_RUN_ERROR_FLAG env)] |}.
Proof.
  intros Hres.
  rewrite agent_exec_result_failure by (rewrite Hres; apply endswith_self).
  unfold after_script_failure, err_msg_of. rewrite Hres, str_slice_to_all.
  destruct (d <? AI_SCRIPT_MAX_RETRY_TIMES (config env)); reflexivity.
Qed.

Lemma bare_marker_gets_placeholder_witness :
  heap (agent_exec_result Scenarios.env_bare_marker (agent_run Scenarios.env_bare_marker)
          SCRIPT "boom()" Examples.cm0 0%nat 1 {| heap := [[]]; trace := [] |}).2 !! 0%nat
  = Some [script_message "boom()"; give_up_message "No error message"].
Proof.
  rewrite (bare_marker_gets_placeholder Scenarios.env_bare_marker
             (agent_run Scenarios.env_bare_marker) "boom()" Examples.cm0 0%nat 1
             {| heap := [[]]; trace := [] |} eq_refl).
  reflexivity.
Defined.

(** X18: the marker has to be a non-empty string.  With an empty marker
    every sandbox result counts as a failure and its text is lost: the
    action adds the two entries with [No error message] and goes on to
    the retry or the notice, whatever the sandbox answered. *)
Theorem empty_marker_fails_every_script env rec code cm l d w :
  CODE_RUN_ERROR_FLAG env = "" ->
  agent_exec_result env rec SCRIPT code cm l d w =
  (if d <? AI_SCRIPT_MAX_RETRY_TIMES (config env)
   then debug_message env (chat_key cm) (debug_retrying env "No error message" d);;
        rec cm (Some l) (d + 1)
   else send_message (chat_key cm) max_retries_notice)
    {| heap := alter (fun ms => ms ++ [script_message code;
                                       failure_reply env "No error message" d])
                 l (heap w);
       trace := trace w ++ debug_events env (chat_key cm) debug_running
                  ++ [EvRunCode code (chat_key cm) (sandbox_result env code cm w)] |}.
Proof.
  intros Hflag.
  rewrite agent_exec_result_failure by (rewrite Hflag; apply endswith_empty).
  unfold after_script_failure, err_msg_of. rewrite Hflag, str_slice_to_zero.
  destruct (d <? AI_SCRIPT_MAX_RETRY_TIMES (config env)); reflexivity.
Qed.

Lemma empty_marker_fails_every_script_witness :
  new_events {| heap := [[]]; trace := [] |}
    (agent_exec_result Scenarios.env_empty_marker (agent_run Scenarios.env_empty_marker)
       SCRIPT "print(42)" Examples.cm0 0%nat 1 {| heap := [[]]; trace := [] |}).2
  = [EvRunCode "print(42)" "group_1" "42"; EvSendMessage "group_1" max_retries_notice].
Proof.
  rewrite (empty_marker_fails_every_script Scenarios.env_empty_marker
             (agent_run Scenarios.env_empty_marker) "print(42)" Examples.cm0 0%nat 1
             {| heap := [[]]; trace := [] |} eq_refl).
  reflexivity.
Defined.
